(** * agentic-pdf-app: field mapper, donor aggregation, workflow orchestrators

    A shallow embedding of the TypeScript sources

    - [FieldMappingService]        (field-mapping service, [mapFields], [mapFieldsHandler]),
    - [FormProcessingOrchestrator] (form-filling workflow, [runFormFillingWorkflow]),
    - [WorkflowOrchestrator]       (PDF-analysis workflow, [runPdfAnalysisWorkflow]),
    - [OrchestrationService]       (start / status / clear over HTTP),

    followed by the properties of the specification that concern them.

    Conventions.  JavaScript numbers are IEEE binary64: they are Rocq's
    primitive floats, so [0.7] below is the very double the source literal
    denotes.  JavaScript strings are modelled by [string] (sequences of
    8-bit characters); [toLowerCase] folds the ASCII letters.  A [Map] is a
    [gmap]; a plain object that the code enumerates ([Object.entries],
    [Object.keys]) is the list of its entries in enumeration order. *)

From Stdlib Require Import PrimFloat Ascii String.
From stdpp Require Import gmap strings list pretty.

Set Warnings "-inexact-float,-register-all".

(* ===================================================================== *)
(** * JavaScript values and string primitives *)
(* ===================================================================== *)

Module JS.

(** The values a JSON body can carry, [undefined], and the members every
    plain object inherits from [Object.prototype]. *)
Inductive value : Type :=
| VUndefined
| VNull
| VBool (b : bool)
| VNum (x : float)
| VStr (s : string)
| VList (l : list value)
| VInherited (member : string).

(** [v !== undefined] *)
Definition defined (v : value) : bool :=
  match v with VUndefined => false | _ => true end.

(** [x >= y] on numbers. *)
Definition geb (x y : float) : bool := PrimFloat.leb y x.

(** Truthiness of a number: [0], [-0] and [NaN] are falsy. *)
Definition truthy_num (x : float) : bool :=
  negb (PrimFloat.eqb x 0 || PrimFloat.is_nan x).

(** [a || b] where [a] is an optional number ([None] is [undefined]). *)
Definition or_default (a : option float) (b : float) : float :=
  match a with
  | Some x => if truthy_num x then x else b
  | None => b
  end.

(** [a ?? b] where [a] is an optional boolean. *)
Definition nullish (a : option bool) (b : bool) : bool :=
  match a with Some x => x | None => b end.

Definition lower_ascii (c : ascii) : ascii :=
  let n := nat_of_ascii c in
  if (65 <=? n) && (n <=? 90) then ascii_of_nat (n + 32) else c.

(** [s.toLowerCase()] *)
Fixpoint toLowerCase (s : string) : string :=
  match s with
  | EmptyString => EmptyString
  | String c s' => String (lower_ascii c) (toLowerCase s')
  end.

(** [s.includes(sub)] *)
Fixpoint includes (s sub : string) : bool :=
  String.prefix sub s ||
  match s with
  | EmptyString => false
  | String _ s' => includes s' sub
  end.

(** [s.substring(0, n)] *)
Definition substring0 (n : nat) (s : string) : string := String.substring 0 n s.

(** A plain object, as the list of its own enumerable entries in the order
    [Object.entries] yields them. *)
Definition object : Type := list (string * value).

Definition keys (o : object) : list string := map fst o.

Fixpoint own (k : string) (o : object) : option value :=
  match o with
  | [] => None
  | (k', v) :: o' => if String.eqb k k' then Some v else own k o'
  end.

(** The property names of [Object.prototype]. *)
Definition prototype_members : list string :=
  [ "constructor"; "__proto__"; "hasOwnProperty"; "isPrototypeOf";
    "propertyIsEnumerable"; "toLocaleString"; "toString"; "valueOf";
    "__defineGetter__"; "__defineSetter__";
    "__lookupGetter__"; "__lookupSetter__" ].

(** [o[k]]: the own entry, else the inherited member, else [undefined]. *)
Definition get (o : object) (k : string) : value :=
  match own k o with
  | Some v => v
  | None => if existsb (String.eqb k) prototype_members
            then VInherited k else VUndefined
  end.

End JS.

(* ===================================================================== *)
(** * Field mapper ([FieldMappingService]) *)
(* ===================================================================== *)

Module FieldMapper.
Import JS.

Record FormField : Type := mkField
  { name : string; type : string; description : string }.

Record MappingResult : Type := mkResult
  { fieldName : string; value : JS.value; confidence : float; source : string }.

(** [commonFieldMappings]: donor-data key, with the form-field name
    variations it may appear under; in the order of the object literal. *)
Definition commonFieldMappings : list (string * list string) :=
  [ ("firstName", ["first_name"; "first"; "fname"; "givenname"; "given_name"]);
    ("lastName", ["last_name"; "last"; "lname"; "surname"; "family_name"; "familyname"]);
    ("fullName", ["full_name"; "name"; "fullname"; "complete_name"; "completename"]);
    ("dateOfBirth", ["dob"; "date_of_birth"; "birthdate"; "birth_date"]);
    ("address", ["street_address"; "streetaddress"; "addr"; "street"; "residence"]);
    ("addressLine1", ["address_line_1"; "address1"; "addr1"; "street1"]);
    ("addressLine2", ["address_line_2"; "address2"; "addr2"; "street2"; "apt"; "unit"]);
    ("city", ["city_name"; "cityname"; "town"; "municipality"]);
    ("state", ["state_name"; "statename"; "province"; "region"]);
    ("zipCode", ["zip"; "zip_code"; "postal"; "postal_code"; "postalcode"]);
    ("phoneNumber", ["phone"; "telephone"; "phone_number"; "tel"; "mobile"; "cell"]);
    ("email", ["email_address"; "emailaddress"; "mail"; "e-mail"]);
    ("ssn", ["social_security"; "social_security_number"; "socialsecurity"; "social"]);
    ("driversLicense", ["drivers_license"; "dl_number"; "license_number"; "licensenumber"]);
    ("gender", ["sex"; "gender_identity"]);
    ("birthPlace", ["place_of_birth"; "birth_place"; "birthcity"; "birth_city"]) ].

Section Tiers.
(** The alias table is a parameter of the tiers, so that statements can
    quantify over it; [mapFields] below fixes it to the source's table. *)
Variable table : list (string * list string).
Variable donorData : JS.object.

(** [formVariations.some(v => s.includes(v)) || s.includes(donorKey.toLowerCase())] *)
Definition matches (s donorKey : string) (formVariations : list string) : bool :=
  existsb (fun v => includes s v) formVariations
  || includes s (toLowerCase donorKey).

(** Direct mapping: [donorData[fieldName] !== undefined]. *)
Definition direct (fieldName : string) : option MappingResult :=
  if defined (get donorData fieldName)
  then Some (mkResult fieldName (get donorData fieldName) 1.0 fieldName)
  else None.

(** First loop over the table: from donor-data keys to form fields. *)
Fixpoint fromDonorKeys (fieldName lcFieldName : string)
         (entries : list (string * list string)) : option MappingResult :=
  match entries with
  | [] => None
  | (donorKey, formVariations) :: rest =>
      if defined (get donorData donorKey)
         && matches lcFieldName donorKey formVariations
      then Some (mkResult fieldName (get donorData donorKey) 0.9 donorKey)
      else fromDonorKeys fieldName lcFieldName rest
  end.

(** Inner loop of the second pass: the donor fields, for one table entry. *)
Fixpoint overDonorFields (fieldName lcFieldName donorKey : string)
         (formVariations : list string) (donorFields : list string)
  : option MappingResult :=
  match donorFields with
  | [] => None
  | donorField :: rest =>
      if matches (toLowerCase donorField) donorKey formVariations
         && matches lcFieldName donorKey formVariations
      then Some (mkResult fieldName (get donorData donorField) 0.85 donorField)
      else overDonorFields fieldName lcFieldName donorKey formVariations rest
  end.

(** Second loop over the table: from form fields to donor data. *)
Fixpoint fromFormFields (fieldName lcFieldName : string)
         (entries : list (string * list string)) : option MappingResult :=
  match entries with
  | [] => None
  | (donorKey, formVariations) :: rest =>
      match overDonorFields fieldName lcFieldName donorKey formVariations
              (keys donorData) with
      | Some r => Some r
      | None => fromFormFields fieldName lcFieldName rest
      end
  end.

(** The overlap test of the last loop. *)
Definition overlap (lcFieldName donorKeyLower : string) : bool :=
  (4 <=? String.length lcFieldName) && (4 <=? String.length donorKeyLower)
  && (includes lcFieldName (substring0 4 donorKeyLower)
      || includes donorKeyLower (substring0 4 lcFieldName)).

(** Last loop, over [Object.entries(donorData)]: for each donor key the
    description test, then the overlap test; the first hit ends it. *)
Fixpoint fuzzy (fieldName lcFieldName fieldDesc : string)
         (entries : JS.object) : option MappingResult :=
  match entries with
  | [] => None
  | (donorKey, v) :: rest =>
      if includes fieldDesc (toLowerCase donorKey)
      then Some (mkResult fieldName v 0.8 donorKey)
      else if overlap lcFieldName (toLowerCase donorKey)
      then Some (mkResult fieldName v 0.7 donorKey)
      else fuzzy fieldName lcFieldName fieldDesc rest
  end.

(** The body of the loop over the form fields: what one field pushes. *)
Definition mapField (formField : FormField) : option MappingResult :=
  let fieldName := name formField in
  let fieldDesc := toLowerCase (description formField) in
  let lcFieldName := toLowerCase fieldName in
  match direct fieldName with
  | Some r => Some r
  | None =>
      match fromDonorKeys fieldName lcFieldName table with
      | Some r => Some r
      | None =>
          match fromFormFields fieldName lcFieldName table with
          | Some r => Some r
          | None => fuzzy fieldName lcFieldName fieldDesc donorData
          end
      end
  end.

(** [mapFields], over an arbitrary alias table. *)
Definition mapFieldsWith (formFields : list FormField)
           (confidenceThreshold : float) : list MappingResult :=
  List.filter (fun result => geb (confidence result) confidenceThreshold)
              (omap mapField formFields).
End Tiers.

Definition mapFields (formFields : list FormField) (donorData : JS.object)
           (confidenceThreshold : float) : list MappingResult :=
  mapFieldsWith commonFieldMappings donorData formFields confidenceThreshold.

(** ** The HTTP handler *)

Record MappingRequest : Type := mkRequest
  { formFields : option (list FormField);
    donorData : option JS.object;
    confidenceParam : option float }.

Record MappingResponse : Type := mkResponse
  { mappedFields : list MappingResult;
    confidenceThreshold : float;
    unmappedFormFields : list FormField;
    unmappedDonorFields : list string }.

Inductive reply : Type :=
| BadRequest
| Ok (body : MappingResponse).

(** [this.confidenceThreshold], set by the constructor and never changed. *)
Definition defaultThreshold : float := 0.7.

Definition appliedThreshold (request : MappingRequest) : float :=
  or_default (confidenceParam request) defaultThreshold.

Definition mapFieldsHandler (request : MappingRequest) : reply :=
  match formFields request, donorData request with
  | Some fields, Some donor =>
      let threshold := appliedThreshold request in
      let mapped := mapFields fields donor threshold in
      Ok (mkResponse mapped threshold
            (List.filter
               (fun field => negb (existsb (fun m => String.eqb (fieldName m) (name field)) mapped))
               fields)
            (List.filter
               (fun key => negb (existsb (fun m => String.eqb (source m) key) mapped))
               (keys donor)))
  | _, _ => BadRequest
  end.

End FieldMapper.

(* ===================================================================== *)
(** * What the two orchestrators share *)
(* ===================================================================== *)

Module Workflow.

Inductive Status : Type := success | failure.

Inductive Provider : Type := perplexity | openai.

(** [interface WorkflowResult], with the type of [data] made explicit. *)
Record Result (D : Type) : Type := mkWorkflowResult
  { status : Status; message : string; data : option D; error : option string }.
Arguments mkWorkflowResult {D} _ _ _ _.
Arguments status {D} _.
Arguments message {D} _.
Arguments data {D} _.
Arguments error {D} _.

Definition isFailure {D} (r : Result D) : bool :=
  match status r with failure => true | success => false end.

Definition isSuccess {D} (r : Result D) : bool := negb (isFailure r).

(** A value that may be [null]. *)
Inductive nullable (A : Type) : Type :=
| Null
| NotNull (a : A).
Arguments Null {A}.
Arguments NotNull {A} _.

(** The outcome of [await axios.post(...)]: the promise rejects, or it
    resolves with a body whose [status] is ['success'], or with any other
    body. *)
Inductive Axios (A : Type) : Type :=
| Rejected (errorMessage : string)
| SuccessBody (body : A)
| OtherBody.
Arguments Rejected {A} _.
Arguments SuccessBody {A} _.
Arguments OtherBody {A}.

Record FieldsData : Type := mkFieldsData
  { fields : list FieldMapper.FormField; provider : string }.

(** [`${prefix}${Date.now()}`] *)
Definition stamped (prefix : string) (now : N) : string := prefix +:+ pretty now.

(** [`${workflowId}-${stage}`] *)
Definition cacheKey (workflowId stage : string) : string :=
  workflowId +:+ "-" +:+ stage.

End Workflow.

(* ===================================================================== *)
(** * Form-filling workflow ([FormProcessingOrchestrator]) *)
(* ===================================================================== *)

Module FormFilling.
Import JS Workflow.

(** A donor-data record: the orchestrator only spreads, counts and forwards
    it, so it is a finite map. *)
Abbreviation DonorRecord := (gmap string JS.value).

Record FormFillingOptions : Type := mkOptions
  { analysisProvider : option Provider;
    confidenceThreshold : option float;
    skipEmptyFields : option bool;
    allowPartial : option bool;
    skipDownloadOnError : option bool }.

Record DonorData : Type := mkDonorData
  { extractedData : option DonorRecord;   (* [None]: missing or falsy *)
    donorProvider : string }.

Record MappingData : Type := mkMappingData
  { mappedFields : list FieldMapper.MappingResult;
    unmappedFormFields : list FieldMapper.FormField;
    unmappedDonorFields : list string;
    mappingThreshold : float }.

Record FilledForm : Type := mkFilledForm
  { filledPath : string; filledFilename : string }.

(** The [data] of a result the workflow itself returns. *)
Record PartialData : Type := mkPartial
  { formPath : option (nullable string);
    partialFields : option (list FieldMapper.FormField);
    partialDonorData : option (nullable DonorRecord);
    partialMappedFields : option (list FieldMapper.MappingResult);
    spreadMapping : option MappingData;
    spreadFilled : option FilledForm }.

Record Summary : Type := mkSummary
  { originalFormPath : string;
    filledFormPath : string;
    filledFormFilename : string;
    extractedFieldsCount : nat;
    mappedFieldsCount : nat;
    unmappedFieldsCount : nat;
    donorDataFields : nat }.

Inductive RunData : Type :=
| OfDownload (path : string)
| OfPartial (p : PartialData)
| OfSummary (s : Summary).

(** What [workflowCache] holds. *)
Inductive Cached : Type :=
| CDownload (r : Result string)
| CFields (r : Result FieldsData)
| CDonorData (d : DonorRecord)
| CMapping (r : Result MappingData)
| CFilledForm (r : Result FilledForm).

(** The environment of one run: the clock, the file system and the five
    collaborators reached over HTTP. *)
Record World : Type := mkWorld
  { now : N;                 (* [Date.now()] when the run starts *)
    nowDownload : N;         (* [Date.now()] when the download is posted *)
    existsSync : string -> bool;
    postDownloadPdf : string -> string -> Axios string;
    postExtractFields : string -> option Provider -> Axios FieldsData;
    postExtractData : string -> option Provider -> Axios DonorData;
    postMapFields : list FieldMapper.FormField -> DonorRecord -> option float
                    -> Axios MappingData;
    postFillForm : string -> DonorRecord -> string -> Axios FilledForm }.

Section Stages.
Variable w : World.

Definition ok {D} (msg : string) (d : D) : Result D :=
  mkWorkflowResult success msg (Some d) None.

Definition ko {D} (msg err : string) : Result D :=
  mkWorkflowResult failure msg None (Some err).

(** Step 1 *)
Definition downloadPdf (pdfUrl : string) : Result string :=
  match postDownloadPdf w pdfUrl (stamped "form-" (nowDownload w) +:+ ".pdf") with
  | SuccessBody path => ok "PDF downloaded successfully" path
  | OtherBody => ko "PDF download failed" "Invalid response from Puppeteer server"
  | Rejected e => ko "PDF download failed" e
  end.

(** Step 2 *)
Definition extractFormFields (pdfPath : string) (provider : option Provider)
  : Result FieldsData :=
  if negb (existsSync w pdfPath)
  then ko "PDF file not found" ("File does not exist at path: " +:+ pdfPath)
  else match postExtractFields w pdfPath provider with
       | SuccessBody d => ok "Form fields extracted successfully" d
       | OtherBody => ko "Field extraction failed" "Invalid response from AI Analysis server"
       | Rejected e => ko "Field extraction failed" e
       end.

(** Step 3, one document *)
Definition extractDonorData (documentPath : string) (provider : option Provider)
  : Result DonorData :=
  if negb (existsSync w documentPath)
  then ko "Donor document not found" ("File does not exist at path: " +:+ documentPath)
  else match postExtractData w documentPath provider with
       | SuccessBody d => ok "Donor data extracted successfully" d
       | OtherBody => ko "Donor data extraction failed"
                         "Invalid response from Document Extraction server"
       | Rejected e => ko "Donor data extraction failed" e
       end.

(** Step 4 *)
Definition mapFieldsToData (formFields : list FieldMapper.FormField)
           (donorData : DonorRecord) (threshold : option float)
  : Result MappingData :=
  match postMapFields w formFields donorData threshold with
  | SuccessBody d => ok "Fields mapped successfully" d
  | OtherBody => ko "Field mapping failed" "Invalid response from Field Mapping service"
  | Rejected e => ko "Field mapping failed" e
  end.

(** [path.basename], on POSIX paths without a trailing separator. *)
Fixpoint basename_go (cur s : string) : string :=
  match s with
  | EmptyString => String.rev cur
  | String c s' => if Ascii.eqb c "/" then basename_go "" s'
                   else basename_go (String c cur) s'
  end.
Definition basename (p : string) : string := basename_go "" p.

(** Step 5 *)
Definition fillForm (formPath : string) (formData : DonorRecord) : Result FilledForm :=
  if negb (existsSync w formPath)
  then ko "Form not found" ("File does not exist at path: " +:+ formPath)
  else match postFillForm w formPath formData ("filled-" +:+ basename formPath) with
       | SuccessBody d => ok "Form filled successfully" d
       | OtherBody => ko "Form filling failed" "Invalid response from Form Filling server"
       | Rejected e => ko "Form filling failed" e
       end.
End Stages.

(** ** The run: a state of the orchestrator threaded through the steps,
    with early [return] *)

Record State : Type := mkState
  { workflowCache : gmap string Cached;
    steps : list nat }.      (* the steps announced on the console, latest first *)

Inductive Flow (A : Type) : Type :=
| Next (a : A)
| Return (r : Result RunData).
Arguments Next {A} _.
Arguments Return {A} _.

Definition Run (A : Type) : Type := State -> Flow A * State.

Definition pure {A} (a : A) : Run A := fun st => (Next a, st).

Definition bind {A B} (k : A -> Run B) (m : Run A) : Run B :=
  fun st => match m st with
            | (Next a, st') => k a st'
            | (Return r, st') => (Return r, st')
            end.

#[export] Instance Run_ret : MRet Run := @pure.
#[export] Instance Run_bind : MBind Run := @bind.

Definition return_ {A} (r : Result RunData) : Run A := fun st => (Return r, st).

(** [this.workflowCache.set(key, v)] *)
Definition cacheSet (key : string) (v : Cached) : Run unit :=
  fun st => (Next tt, mkState (<[key := v]> (workflowCache st)) (steps st)).

(** [console.log(`[Form Orchestrator] Step n: ...`)] *)
Definition announce (n : nat) : Run unit :=
  fun st => (Next tt, mkState (workflowCache st) (n :: steps st)).

(** The handler of the outer [try]: what a [TypeError] raised by reading a
    property of [undefined] turns into. *)
Definition workflowError {A} (err : string) : Run A :=
  return_ (mkWorkflowResult failure "Form filling workflow failed" None (Some err)).

(** [r.data.<property>], for a result whose [data] may be absent. *)
Definition dataOf {D} (r : Result D) (property : string) : Run D :=
  match data r with
  | Some d => pure d
  | None => workflowError
              ("Cannot read properties of undefined (reading '" +:+ property +:+ "')")
  end.

Definition when_ (b : bool) (r : Result RunData) : Run unit :=
  if b then return_ r else pure tt.

(** [return downloadResult] *)
Definition forward (r : Result string) : Result RunData :=
  mkWorkflowResult (status r) (message r) (OfDownload <$> data r) (error r).

(** [{ ...r, data: p }] *)
Definition withData {D} (r : Result D) (p : PartialData) : Result RunData :=
  mkWorkflowResult (status r) (message r) (Some (OfPartial p)) (error r).

(** [skipDownloadOnError ? null : formPath] *)
Definition exposed (skip : bool) (formPath : string) : nullable string :=
  if skip then Null else NotNull formPath.

(** [donorDataResults.every(result => result.status === 'failure')] *)
Definition allFailed (results : list (Result DonorData)) : bool :=
  forallb isFailure results.

(** The callback of [donorDataResults.reduce]; [None] is the [TypeError] of
    reading [extractedData] on a successful result without [data]. *)
Definition combineStep (combined : option DonorRecord) (result : Result DonorData)
  : option DonorRecord :=
  c ← combined;
  if isSuccess result
  then d ← data result;
       Some (match extractedData d with
             | Some extracted => extracted ∪ c      (* [{ ...combined, ...extracted }] *)
             | None => c
             end)
  else Some c.

Definition combineDonorData (results : list (Result DonorData)) : option DonorRecord :=
  fold_left combineStep results (Some ∅).

(** [data[field.fieldName] = field.value] on the plain object [data].  The
    assignment defines an own entry, except under the name [__proto__]: as
    long as [data] inherits from [Object.prototype], that name reaches the
    inherited setter, which defines no own entry and replaces the prototype
    of [data] when the value is an object or [null].  Once the prototype
    is [null] ([severed]) the setter is out of reach and [__proto__] is
    assigned like any other name.  The values are those of a JSON body. *)
Definition assignField (acc : DonorRecord * bool) (field : FieldMapper.MappingResult)
  : DonorRecord * bool :=
  let '(data, severed) := acc in
  if String.eqb (FieldMapper.fieldName field) "__proto__" && negb severed
  then (data, match FieldMapper.value field with VNull => true | _ => false end)
  else (<[FieldMapper.fieldName field := FieldMapper.value field]> data, severed).

(** [mappedFields.reduce((data, field) => { data[field.fieldName] = field.value; ... }, {})]:
    the own entries of the object built. *)
Definition toFormData (mapped : list FieldMapper.MappingResult) : DonorRecord :=
  (fold_left assignField mapped (∅, false)).1.

Definition runFormFillingWorkflow (w : World) (pdfFormUrl : string)
           (donorDocumentPaths : list string) (options : option FormFillingOptions)
  : Run (Result RunData) :=
  let workflowId := stamped "form-filling-" (now w) in
  let skip := nullish (options ≫= skipDownloadOnError) true in
  let provider := options ≫= analysisProvider in
  (* Step 1: download the PDF form *)
  announce 1;;
  let downloadResult := downloadPdf w pdfFormUrl in
  when_ (isFailure downloadResult) (forward downloadResult);;
  formPath ← dataOf downloadResult "path";
  cacheSet (cacheKey workflowId "download") (CDownload downloadResult);;
  (* Step 2: extract the empty form fields *)
  announce 2;;
  let fieldExtractionResult := extractFormFields w formPath provider in
  when_ (isFailure fieldExtractionResult)
    (withData fieldExtractionResult
       (mkPartial (Some (exposed skip formPath)) None None None None None));;
  fieldsData ← dataOf fieldExtractionResult "fields";
  let formFields := fields fieldsData in
  cacheSet (cacheKey workflowId "fields") (CFields fieldExtractionResult);;
  (* Step 3: extract data from the donor documents *)
  announce 3;;
  let donorDataResults :=
    map (fun docPath => extractDonorData w docPath provider) donorDocumentPaths in
  when_ (allFailed donorDataResults && (0 <? length donorDocumentPaths))
    (mkWorkflowResult failure "All donor data extractions failed"
       (Some (OfPartial (mkPartial (Some (exposed skip formPath)) (Some formFields)
                           None None None None)))
       (Some "Failed to extract data from any donor documents"));;
  donorData ← match combineDonorData donorDataResults with
               | Some d => pure d
               | None => workflowError
                   "Cannot read properties of undefined (reading 'extractedData')"
               end;
  cacheSet (cacheKey workflowId "donor-data") (CDonorData donorData);;
  (* Step 4: map donor data to form fields *)
  announce 4;;
  let fieldMappingResult :=
    mapFieldsToData w formFields donorData (options ≫= confidenceThreshold) in
  when_ (isFailure fieldMappingResult)
    (withData fieldMappingResult
       (mkPartial (Some (exposed skip formPath)) None None None
          (data fieldMappingResult) None));;
  mapping ← dataOf fieldMappingResult "mappedFields";
  let mapped := mappedFields mapping in
  let formData := toFormData mapped in
  cacheSet (cacheKey workflowId "mapping") (CMapping fieldMappingResult);;
  (* Step 5: fill the form *)
  announce 5;;
  let formFillingResult := fillForm w formPath formData in
  when_ (isFailure formFillingResult)
    (withData formFillingResult
       (mkPartial (Some (exposed skip formPath)) None None (Some mapped)
          None (data formFillingResult)));;
  cacheSet (cacheKey workflowId "filled-form") (CFilledForm formFillingResult);;
  filled ← dataOf formFillingResult "filledForm";
  pure (mkWorkflowResult success "Form filling workflow completed successfully"
          (Some (OfSummary
                   (mkSummary formPath (filledPath filled) (filledFilename filled)
                      (length formFields) (length mapped)
                      (length (unmappedFormFields mapping)) (size donorData))))
          None).

(** The value the caller's promise resolves with, and the state left. *)
Definition execute (m : Run (Result RunData)) (st : State) : Result RunData * State :=
  match m st with
  | (Next r, st') => (r, st')
  | (Return r, st') => (r, st')
  end.

Record Aggregate : Type := mkAggregate
  { aggDownload : Cached;
    aggFields : Cached;
    aggDonorData : option Cached;
    aggMapping : option Cached;
    aggFilledForm : Cached }.

(** [getWorkflowResult]: [None] is [null]; a cached object is always truthy,
    so [!x] holds exactly when the key is absent. *)
Definition getWorkflowResult (cache : gmap string Cached) (workflowId : string)
  : option Aggregate :=
  let downloadResult := cache !! cacheKey workflowId "download" in
  let fieldsResult := cache !! cacheKey workflowId "fields" in
  let donorDataResult := cache !! cacheKey workflowId "donor-data" in
  let mappingResult := cache !! cacheKey workflowId "mapping" in
  let filledFormResult := cache !! cacheKey workflowId "filled-form" in
  match downloadResult, fieldsResult, filledFormResult with
  | Some d, Some f, Some ff => Some (mkAggregate d f donorDataResult mappingResult ff)
  | _, _, _ => None
  end.

Definition clearWorkflowCache (cache : gmap string Cached) (workflowId : string)
  : gmap string Cached :=
  delete (cacheKey workflowId "filled-form")
    (delete (cacheKey workflowId "mapping")
       (delete (cacheKey workflowId "donor-data")
          (delete (cacheKey workflowId "fields")
             (delete (cacheKey workflowId "download") cache)))).

End FormFilling.

(* ===================================================================== *)
(** * PDF-analysis workflow ([WorkflowOrchestrator]) *)
(* ===================================================================== *)

Module PdfAnalysis.
Import JS Workflow.

Record Options : Type := mkOptions
  { analysisProvider : option Provider;
    filename : option string;
    skipDownloadOnError : option bool }.

Record Analysis : Type := mkAnalysis
  { pdfPath : string; analysisFields : list FieldMapper.FormField;
    analysisProviderName : string }.

Inductive RunData : Type :=
| OfDownload (path : string)
| OfPdfPath (pdfPath : nullable string)
| OfAnalysis (a : Analysis).

Inductive Cached : Type :=
| CDownload (r : Result string)
| CExtraction (r : Result FieldsData).

Record World : Type := mkWorld
  { now : N;                 (* [Date.now()] when the run starts *)
    nowDownload : N;         (* [Date.now()] when the download is posted *)
    existsSync : string -> bool;
    postDownloadPdf : string -> string -> Axios string;
    postExtractFields : string -> option Provider -> Axios FieldsData }.

Definition ok {D} (msg : string) (d : D) : Result D :=
  mkWorkflowResult success msg (Some d) None.

Definition ko {D} (msg err : string) : Result D :=
  mkWorkflowResult failure msg None (Some err).

(** [customFilename || `download-${Date.now()}.pdf`]: the empty string is falsy. *)
Definition downloadName (w : World) (customFilename : option string) : string :=
  match customFilename with
  | Some (String c s) => String c s
  | _ => stamped "download-" (nowDownload w) +:+ ".pdf"
  end.

Definition downloadPdf (w : World) (pdfUrl : string) (customFilename : option string)
  : Result string :=
  match postDownloadPdf w pdfUrl (downloadName w customFilename) with
  | SuccessBody path => ok "PDF downloaded successfully" path
  | OtherBody => ko "PDF download failed" "Invalid response from Puppeteer server"
  | Rejected e => ko "PDF download failed" e
  end.

Definition extractFormFields (w : World) (pdfPath : string) (provider : option Provider)
  : Result FieldsData :=
  if negb (existsSync w pdfPath)
  then ko "PDF file not found" ("File does not exist at path: " +:+ pdfPath)
  else match postExtractFields w pdfPath provider with
       | SuccessBody d => ok "Form fields extracted successfully" d
       | OtherBody => ko "Field extraction failed" "Invalid response from AI Analysis server"
       | Rejected e => ko "Field extraction failed" e
       end.

Definition workflowError (err : string) : Result RunData :=
  mkWorkflowResult failure "PDF analysis workflow failed" None (Some err).

(** [runPdfAnalysisWorkflow]: the result, and the cache it leaves. *)
Definition runPdfAnalysisWorkflow (w : World) (cache : gmap string Cached)
           (pdfUrl : string) (options : option Options)
  : Result RunData * gmap string Cached :=
  let workflowId := stamped "workflow-" (now w) in
  let skip := nullish (options ≫= skipDownloadOnError) true in
  let downloadResult := downloadPdf w pdfUrl (options ≫= filename) in
  if isFailure downloadResult
  then (mkWorkflowResult (status downloadResult) (message downloadResult)
          (OfDownload <$> data downloadResult) (error downloadResult), cache)
  else
    match data downloadResult with
    | None => (workflowError "Cannot read properties of undefined (reading 'path')", cache)
    | Some pdfPath =>
        let cache1 := <[cacheKey workflowId "download" := CDownload downloadResult]> cache in
        let extractionResult := extractFormFields w pdfPath (options ≫= analysisProvider) in
        if isFailure extractionResult
        then (mkWorkflowResult (status extractionResult) (message extractionResult)
                (Some (OfPdfPath (if skip then Null else NotNull pdfPath)))
                (error extractionResult), cache1)
        else
          let cache2 :=
            <[cacheKey workflowId "extraction" := CExtraction extractionResult]> cache1 in
          match data extractionResult with
          | None => (workflowError "Cannot read properties of undefined (reading 'fields')",
                     cache2)
          | Some d =>
              (mkWorkflowResult success "PDF analysis workflow completed successfully"
                 (Some (OfAnalysis (mkAnalysis pdfPath (fields d) (provider d)))) None,
               cache2)
          end
    end.

(** [getWorkflowResult]: [None] is [null]. *)
Definition getWorkflowResult (cache : gmap string Cached) (workflowId : string)
  : option (Cached * Cached) :=
  match cache !! cacheKey workflowId "download", cache !! cacheKey workflowId "extraction" with
  | Some downloadResult, Some extractionResult => Some (downloadResult, extractionResult)
  | _, _ => None
  end.

Definition clearWorkflowCache (cache : gmap string Cached) (workflowId : string)
  : gmap string Cached :=
  delete (cacheKey workflowId "extraction") (delete (cacheKey workflowId "download") cache).

End PdfAnalysis.

(* ===================================================================== *)
(** * The service surface ([OrchestrationService]) *)
(* ===================================================================== *)

Module OrchestrationService.
Import JS Workflow.

Inductive RunStatus : Type :=
| running
| finished (s : Status).

Record Entry : Type := mkEntry
  { entryStatus : RunStatus; startTime : N; completedTime : option N }.

(** A run started by [runWorkflowAsync] whose promise has not settled. *)
Record Pending : Type := mkPending
  { pendingId : string; pendingUrl : string;
    pendingProvider : option Provider; pendingFilename : option string }.

#[export] Instance Provider_eq_dec : EqDecision Provider.
Proof. solve_decision. Defined.

#[export] Instance Pending_eq_dec : EqDecision Pending.
Proof. solve_decision. Defined.

(** The runs in flight, one fewer of [p]. *)
Fixpoint settleOne (p : Pending) (runs : list Pending) : list Pending :=
  match runs with
  | [] => []
  | q :: rest => if decide (q = p) then rest else q :: settleOne p rest
  end.

Record Service : Type := mkService
  { activeWorkflows : gmap string Entry;
    orchestrator : gmap string PdfAnalysis.Cached;   (* its [workflowCache] *)
    inFlight : list Pending }.

(** [new OrchestrationService()] *)
Definition initial : Service := mkService ∅ ∅ [].

Inductive StartReply : Type :=
| StartBadRequest
| Accepted (workflowId : string).

(** [POST /workflow/pdf-analysis], received when the clock reads [now]. *)
Definition startPdfAnalysisWorkflow (now : N) (pdfUrl : string)
           (analysisProvider : option Provider) (filename : option string)
           (s : Service) : StartReply * Service :=
  match pdfUrl with
  | EmptyString => (StartBadRequest, s)
  | _ =>
      let workflowId := stamped "pdf-analysis-" now in
      (Accepted workflowId,
       mkService (<[workflowId := mkEntry running now None]> (activeWorkflows s))
                 (orchestrator s)
                 (mkPending workflowId pdfUrl analysisProvider filename :: inFlight s))
  end.

(** The rest of [runWorkflowAsync]: the orchestrator's run of a pending
    request in the world [w], and the status update when it settles at
    [settled]. *)
Definition runWorkflowAsync (w : PdfAnalysis.World) (settled : N) (p : Pending)
           (s : Service) : Service :=
  let '(result, cache) :=
    PdfAnalysis.runPdfAnalysisWorkflow w (orchestrator s) (pendingUrl p)
      (Some (PdfAnalysis.mkOptions (pendingProvider p) (pendingFilename p) None)) in
  let started :=
    match activeWorkflows s !! pendingId p with
    | Some e => startTime e
    | None => settled
    end in
  mkService (<[pendingId p := mkEntry (finished (status result)) started (Some settled)]>
               (activeWorkflows s))
            cache
            (settleOne p (inFlight s)).

Inductive StatusReply : Type :=
| StatusBadRequest
| NotFound
| StillRunning (workflowId : string) (startTime : N)
| Completed (workflowId : string) (s : Status) (startTime : N)
            (completedTime : option N)
            (result : option (PdfAnalysis.Cached * PdfAnalysis.Cached)).

(** [GET /workflow/:workflowId] *)
Definition getWorkflowStatus (workflowId : string) (s : Service) : StatusReply :=
  match workflowId with
  | EmptyString => StatusBadRequest
  | _ =>
      match activeWorkflows s !! workflowId with
      | None => NotFound
      | Some e =>
          match entryStatus e with
          | finished st =>
              Completed workflowId st (startTime e) (completedTime e)
                (PdfAnalysis.getWorkflowResult (orchestrator s) workflowId)
          | running => StillRunning workflowId (startTime e)
          end
      end
  end.

(** [DELETE /workflow/:workflowId] *)
Definition clearWorkflow (workflowId : string) (s : Service) : Service :=
  match activeWorkflows s !! workflowId with
  | None => s
  | Some _ =>
      mkService (delete workflowId (activeWorkflows s))
                (PdfAnalysis.clearWorkflowCache (orchestrator s) workflowId)
                (inFlight s)
  end.

(** What can happen to the service, one event at a time. *)
Inductive step : Service -> Service -> Prop :=
| step_start now pdfUrl provider filename s :
    step s (startPdfAnalysisWorkflow now pdfUrl provider filename s).2
| step_settle w settled p s :
    In p (inFlight s) ->
    step s (runWorkflowAsync w settled p s)
| step_clear workflowId s :
    step s (clearWorkflow workflowId s).

Inductive reachable : Service -> Prop :=
| reachable_initial : reachable initial
| reachable_step s s' : reachable s -> step s s' -> reachable s'.

End OrchestrationService.

(* ===================================================================== *)
(** * Statements of the specification that are compared with the code *)
(* ===================================================================== *)

Module Stated.
Import JS Workflow.

(** "First tier that matches wins", read on tiers 4 and 5: a field whose
    lower-cased description contains a donor-data key verbatim never ends
    up with the confidence of the weak prefix match. *)
Definition description_beats_prefix (formField : FieldMapper.FormField)
           (donorData : JS.object) (threshold : float) : Prop :=
  forall donorKey,
    In donorKey (keys donorData) ->
    includes (toLowerCase (FieldMapper.description formField)) donorKey = true ->
    forall r, In r (FieldMapper.mapFields [formField] donorData threshold) ->
              FieldMapper.confidence r <> 0.7%float.

(** Weak prefix match as the specification words it: equal 4-character
    prefixes of two lower-cased strings of length at least 4. *)
Definition prefix_match (fieldName donorKey : string) : Prop :=
  substring0 4 (toLowerCase fieldName) = substring0 4 (toLowerCase donorKey)
  /\ 4 <= String.length (toLowerCase fieldName)
  /\ 4 <= String.length (toLowerCase donorKey).

Definition weak_results_are_prefix_matches (formFields : list FieldMapper.FormField)
           (donorData : JS.object) (threshold : float) : Prop :=
  forall r, In r (FieldMapper.mapFields formFields donorData threshold) ->
            FieldMapper.confidence r = 0.7%float ->
            prefix_match (FieldMapper.fieldName r) (FieldMapper.source r).

(** The path a failed field extraction exposes, as the specification has
    it: hidden only when the flag is explicitly [true]. *)
Definition exposed_unless_set (flag : option bool) (formPath : string)
  : nullable string :=
  match flag with
  | Some true => Null
  | _ => NotNull formPath
  end.

Definition extraction_failure_exposes_path (w : FormFilling.World)
           (pdfFormUrl : string) (donorDocumentPaths : list string)
           (options : option FormFilling.FormFillingOptions)
           (st : FormFilling.State) : Prop :=
  forall formPath,
    isSuccess (FormFilling.downloadPdf w pdfFormUrl) = true ->
    data (FormFilling.downloadPdf w pdfFormUrl) = Some formPath ->
    isFailure (FormFilling.extractFormFields w formPath
                 (options ≫= FormFilling.analysisProvider)) = true ->
    exists p,
      data (FormFilling.execute
              (FormFilling.runFormFillingWorkflow w pdfFormUrl donorDocumentPaths options)
              st).1 = Some (FormFilling.OfPartial p)
      /\ FormFilling.formPath p
         = Some (exposed_unless_set (options ≫= FormFilling.skipDownloadOnError) formPath).


(** "The union of the M successes": the maps of the successful outcomes, in
    document order, united so that a later map overrides an earlier one. *)
Definition successfulMaps (results : list (Result FormFilling.DonorData))
  : list (gmap string JS.value) :=
  omap (fun r => if isSuccess r then data r ≫= FormFilling.extractedData else None)
       results.

Definition unionInOrder (maps : list (gmap string JS.value)) : gmap string JS.value :=
  ⋃ (reverse maps).

End Stated.

(* ===================================================================== *)
(** * Concrete worlds, used to run the workflows *)
(* ===================================================================== *)

Module Scenarios.
Import JS Workflow.

Definition formUrl : string := "https://forms.example/dv100.pdf".
Definition formPath : string := "/uploads/downloads/form.pdf".

Definition someFields : FieldsData :=
  mkFieldsData [FieldMapper.mkField "city" "text" "City of residence"] "openai".

Definition oakland : gmap string JS.value := {[ "city" := VStr "Oakland" ]}.
Definition berkeley : gmap string JS.value := {[ "city" := VStr "Berkeley" ]}.

(** The download succeeds; the AI analysis server answers without
    [status: 'success']. *)
Definition extractionFails : FormFilling.World :=
  FormFilling.mkWorld 1000 1001 (fun _ => true)
    (fun _ _ => SuccessBody formPath)
    (fun _ _ => OtherBody)
    (fun _ _ => OtherBody)
    (fun _ _ _ => OtherBody)
    (fun _ _ _ => OtherBody).

(** Download and field extraction succeed; the donor documents named
    [/docs/missing...] do not exist, every other one yields
    [{city: "Oakland"}]; mapping and filling succeed. *)
Definition oneDocumentMissing : FormFilling.World :=
  FormFilling.mkWorld 1000 1001
    (fun p => negb (String.prefix "/docs/missing" p))
    (fun _ _ => SuccessBody formPath)
    (fun _ _ => SuccessBody someFields)
    (fun _ _ => SuccessBody (FormFilling.mkDonorData (Some oakland) "openai"))
    (fun _ _ _ => SuccessBody (FormFilling.mkMappingData [] [] [] 0.7))
    (fun _ _ _ => SuccessBody (FormFilling.mkFilledForm "/uploads/filled-form.pdf"
                                                         "filled-form.pdf")).

Definition idle : FormFilling.State := FormFilling.mkState ∅ [].


Definition fromOakland : Result FormFilling.DonorData :=
  FormFilling.ok "Donor data extracted successfully"
    (FormFilling.mkDonorData (Some oakland) "openai").

Definition fromBerkeley : Result FormFilling.DonorData :=
  FormFilling.ok "Donor data extracted successfully"
    (FormFilling.mkDonorData (Some berkeley) "openai").

(** The PDF-analysis collaborators all succeed. *)
Definition analysisSucceeds : PdfAnalysis.World :=
  PdfAnalysis.mkWorld 1000 1001 (fun _ => true)
    (fun _ _ => SuccessBody formPath)
    (fun _ _ => SuccessBody someFields).

(** The request of the repository's own polling test: start, then poll. *)
Definition testRequest : OrchestrationService.Pending :=
  OrchestrationService.mkPending "pdf-analysis-1000" formUrl (Some perplexity)
                                 (Some "dv100.pdf").

End Scenarios.

(* ===================================================================== *)
(** * Predicates the proofs are organised around *)
(* ===================================================================== *)

Module Invariants.
Import JS Workflow.

(** The five confidences the mapper writes. *)
Definition tier_confidence (c : float) : Prop :=
  (c = 1.0 \/ c = 0.9 \/ c = 0.85 \/ c = 0.8 \/ c = 0.7)%float.

(** Extraction results as [extractDonorData] builds them: a successful one
    has [data]. *)
Definition wellFormed (results : list (Result FormFilling.DonorData)) : Prop :=
  Forall (fun r => isSuccess r = true -> is_Some (data r)) results.

(** The identifiers the service hands out and the keys the orchestrator
    caches under never meet: the former start with [pdf-analysis-], the
    latter with [workflow-]. *)
Definition serviceId (id : string) : Prop := String.prefix "pdf-analysis-" id = true.
Definition orchestratorKey (key : string) : Prop := String.prefix "workflow-" key = true.

Record consistent (s : OrchestrationService.Service) : Prop := mkConsistent
  { registered_ids :
      forall id, is_Some (OrchestrationService.activeWorkflows s !! id) -> serviceId id;
    cached_keys :
      forall key, is_Some (OrchestrationService.orchestrator s !! key) -> orchestratorKey key;
    pending_ids :
      forall p, In p (OrchestrationService.inFlight s)
                -> serviceId (OrchestrationService.pendingId p) }.

End Invariants.

(* ===================================================================== *)
(** * Properties of the field mapper *)
(* ===================================================================== *)

Module FieldMapperFacts.
Import JS FieldMapper Invariants.

(** Two doubles that a comparison tells apart are different. *)
Lemma geb_separates (x y z : float) : geb x z = true -> geb y z = false -> x <> y.
Proof. intros Hx Hy E. subst. congruence. Qed.

Lemma c100_not_weak : (1.0 <> 0.7)%float.
Proof. apply (geb_separates _ _ 0.8%float); reflexivity. Qed.
Lemma c090_not_weak : (0.9 <> 0.7)%float.
Proof. apply (geb_separates _ _ 0.8%float); reflexivity. Qed.
Lemma c085_not_weak : (0.85 <> 0.7)%float.
Proof. apply (geb_separates _ _ 0.8%float); reflexivity. Qed.
Lemma c080_not_weak : (0.8 <> 0.7)%float.
Proof. apply (geb_separates _ _ 0.8%float); reflexivity. Qed.

Section PerField.
Variable table : list (string * list string).
Variable donor : JS.object.

Lemma direct_Some n r :
  direct donor n = Some r ->
  r = mkResult n (get donor n) 1.0 n /\ defined (get donor n) = true.
Proof. unfold direct. case_match; naive_solver. Qed.

Lemma fromDonorKeys_Some n lc entries r :
  fromDonorKeys donor n lc entries = Some r ->
  exists k vs, In (k, vs) entries /\ r = mkResult n (get donor k) 0.9 k
               /\ defined (get donor k) = true /\ matches lc k vs = true.
Proof.
  induction entries as [|[k vs] rest IH]; simpl; [done|].
  destruct (defined (get donor k) && matches lc k vs) eqn:E.
  - intros [= <-]. apply andb_true_iff in E as [? ?]. eauto 10.
  - intros H. destruct (IH H) as (k' & vs' & ? & ?). eauto 10.
Qed.

Lemma overDonorFields_Some n lc k vs donorFields r :
  overDonorFields donor n lc k vs donorFields = Some r ->
  exists donorField, In donorField donorFields
                     /\ r = mkResult n (get donor donorField) 0.85 donorField
                     /\ matches (toLowerCase donorField) k vs = true
                     /\ matches lc k vs = true.
Proof.
  induction donorFields as [|d rest IH]; simpl; [done|].
  destruct (matches (toLowerCase d) k vs && matches lc k vs) eqn:E.
  - intros [= <-]. apply andb_true_iff in E as [? ?]. eauto 10.
  - intros H. destruct (IH H) as (d' & ? & ?). eauto 10.
Qed.

Lemma fromFormFields_Some n lc entries r :
  fromFormFields donor n lc entries = Some r ->
  exists k vs donorField,
    In (k, vs) entries /\ In donorField (keys donor)
    /\ r = mkResult n (get donor donorField) 0.85 donorField
    /\ matches (toLowerCase donorField) k vs = true
    /\ matches lc k vs = true.
Proof.
  induction entries as [|[k vs] rest IH]; simpl; [done|].
  destruct (overDonorFields donor n lc k vs (keys donor)) eqn:E.
  - intros [= <-]. apply overDonorFields_Some in E as (d & ? & ? & ? & ?). eauto 10.
  - intros H. destruct (IH H) as (k' & vs' & d & ? & ?). eauto 10.
Qed.

(** The last loop stops at the first entry that passes either test,
    and the description test is the one looked at first. *)
Lemma fuzzy_Some n lc desc entries r :
  fuzzy n lc desc entries = Some r ->
  exists k v, In (k, v) entries
    /\ ((r = mkResult n v 0.8 k /\ includes desc (toLowerCase k) = true)
        \/ (r = mkResult n v 0.7 k /\ includes desc (toLowerCase k) = false
            /\ overlap lc (toLowerCase k) = true)).
Proof.
  induction entries as [|[k v] rest IH]; simpl; [done|].
  destruct (includes desc (toLowerCase k)) eqn:E1.
  - intros [= <-]. eauto 10.
  - destruct (overlap lc (toLowerCase k)) eqn:E2.
    + intros [= <-]. exists k, v. eauto 10.
    + intros H. destruct (IH H) as (k' & v' & ? & ?). eauto 10.
Qed.

Lemma fuzzy_first_hit n lc desc before k v after :
  (forall k' v', In (k', v') before ->
                 includes desc (toLowerCase k') = false
                 /\ overlap lc (toLowerCase k') = false) ->
  includes desc (toLowerCase k) || overlap lc (toLowerCase k) = true ->
  fuzzy n lc desc (before ++ (k, v) :: after)
  = Some (mkResult n v (if includes desc (toLowerCase k) then 0.8 else 0.7) k).
Proof.
  induction before as [|[k0 v0] before IH]; simpl; intros Hbefore Hhit.
  - destruct (includes desc (toLowerCase k)); [done|].
    simpl in Hhit. by rewrite Hhit.
  - destruct (Hbefore k0 v0) as [-> ->]; [by left|].
    apply IH; [|done]. intros k' v' Hin. apply (Hbefore k' v'). by right.
Qed.

Lemma fuzzy_none n lc desc entries :
  (forall k' v', In (k', v') entries ->
                 includes desc (toLowerCase k') = false
                 /\ overlap lc (toLowerCase k') = false) ->
  fuzzy n lc desc entries = None.
Proof.
  induction entries as [|[k0 v0] rest IH]; simpl; intros Hall; [done|].
  destruct (Hall k0 v0) as [-> ->]; [by left|].
  apply IH. intros k' v' Hin. apply (Hall k' v'). by right.
Qed.

Lemma fromDonorKeys_first_hit n lc before k vs after :
  (forall k' vs', In (k', vs') before ->
                  defined (get donor k') && matches lc k' vs' = false) ->
  defined (get donor k) && matches lc k vs = true ->
  fromDonorKeys donor n lc (before ++ (k, vs) :: after)
  = Some (mkResult n (get donor k) 0.9 k).
Proof.
  induction before as [|[k0 vs0] before IH]; simpl; intros Hbefore Hhit.
  - by rewrite Hhit.
  - rewrite (Hbefore k0 vs0) by tauto. apply IH; [|done].
    intros k' vs' Hin. apply Hbefore. tauto.
Qed.

Lemma fromDonorKeys_none n lc entries :
  (forall k vs, In (k, vs) entries -> defined (get donor k) && matches lc k vs = false) ->
  fromDonorKeys donor n lc entries = None.
Proof.
  induction entries as [|[k0 vs0] rest IH]; simpl; intros Hall; [done|].
  rewrite (Hall k0 vs0) by tauto. apply IH. intros k vs Hin. apply Hall. tauto.
Qed.

Lemma overDonorFields_first_hit n lc k vs before d after :
  (forall d', In d' before ->
              matches (toLowerCase d') k vs && matches lc k vs = false) ->
  matches (toLowerCase d) k vs && matches lc k vs = true ->
  overDonorFields donor n lc k vs (before ++ d :: after)
  = Some (mkResult n (get donor d) 0.85 d).
Proof.
  induction before as [|d0 before IH]; simpl; intros Hbefore Hhit.
  - by rewrite Hhit.
  - rewrite (Hbefore d0) by tauto. apply IH; [|done].
    intros d' Hin. apply Hbefore. tauto.
Qed.

Lemma overDonorFields_none n lc k vs donorFields :
  (forall d, In d donorFields ->
             matches (toLowerCase d) k vs && matches lc k vs = false) ->
  overDonorFields donor n lc k vs donorFields = None.
Proof.
  induction donorFields as [|d0 rest IH]; simpl; intros Hall; [done|].
  rewrite (Hall d0) by tauto. apply IH. intros d Hin. apply Hall. tauto.
Qed.

Lemma fromFormFields_first_hit n lc before k vs after r :
  (forall k' vs' d, In (k', vs') before -> In d (keys donor) ->
                    matches (toLowerCase d) k' vs' && matches lc k' vs' = false) ->
  overDonorFields donor n lc k vs (keys donor) = Some r ->
  fromFormFields donor n lc (before ++ (k, vs) :: after) = Some r.
Proof.
  induction before as [|[k0 vs0] before IH]; simpl; intros Hbefore Hhit.
  - by rewrite Hhit.
  - rewrite overDonorFields_none by (intros d Hd; apply Hbefore; tauto).
    apply IH; [|done]. intros k' vs' d Hin. apply Hbefore. tauto.
Qed.

Lemma fromFormFields_none n lc entries :
  (forall k vs d, In (k, vs) entries -> In d (keys donor) ->
                  matches (toLowerCase d) k vs && matches lc k vs = false) ->
  fromFormFields donor n lc entries = None.
Proof.
  induction entries as [|[k0 vs0] rest IH]; simpl; intros Hall; [done|].
  rewrite overDonorFields_none by (intros d Hd; apply Hall; tauto).
  apply IH. intros k vs d Hin. apply Hall. tauto.
Qed.

(** What a field can push, tier by tier. *)
Lemma mapField_Some f r :
  mapField table donor f = Some r ->
  fieldName r = name f
  /\ ((confidence r = 1.0%float /\ source r = name f
       /\ value r = get donor (name f))
      \/ (confidence r = 0.9%float /\ In (source r) (map fst table))
      \/ (confidence r = 0.85%float /\ In (source r) (keys donor))
      \/ (confidence r = 0.8%float /\ In (source r) (keys donor)
          /\ includes (toLowerCase (description f)) (toLowerCase (source r)) = true)
      \/ (confidence r = 0.7%float /\ In (source r) (keys donor)
          /\ includes (toLowerCase (description f)) (toLowerCase (source r)) = false
          /\ overlap (toLowerCase (name f)) (toLowerCase (source r)) = true)).
Proof.
  unfold mapField.
  destruct (direct donor (name f)) eqn:E1.
  { intros [= <-]. apply direct_Some in E1 as [-> _]. simpl. tauto. }
  destruct (fromDonorKeys donor (name f) _ table) eqn:E2.
  { intros [= <-]. apply fromDonorKeys_Some in E2 as (k & vs & Hin & -> & _).
    simpl. split; [done|]. right; left. split; [done|].
    apply in_map_iff. by exists (k, vs). }
  destruct (fromFormFields donor (name f) _ table) eqn:E3.
  { intros [= <-]. apply fromFormFields_Some in E3 as (k & vs & d & _ & Hin & -> & _).
    simpl. tauto. }
  intros H. apply fuzzy_Some in H as (k & v & Hin & H).
  assert (In k (keys donor)) by (apply in_map_iff; by exists (k, v)).
  destruct H as [[-> ?]|[-> [? ?]]]; simpl; tauto.
Qed.

Lemma mapField_tier f r :
  mapField table donor f = Some r -> tier_confidence (confidence r).
Proof.
  intros H. apply mapField_Some in H as [_ H]. unfold tier_confidence.
  destruct H as [(-> & _)|[(-> & _)|[(-> & _)|[(-> & _)|(-> & _)]]]]; tauto.
Qed.

Lemma mapFieldsWith_In fields threshold r :
  In r (mapFieldsWith table donor fields threshold) <->
  (exists f, In f fields /\ mapField table donor f = Some r)
  /\ geb (confidence r) threshold = true.
Proof.
  unfold mapFieldsWith. rewrite filter_In, <- list_elem_of_In, list_elem_of_omap.
  setoid_rewrite list_elem_of_In. done.
Qed.
End PerField.

End FieldMapperFacts.

Module FieldMapperClaims.
Import JS FieldMapper FieldMapperFacts.

(** C8.  Whatever the form fields, the donor data and the threshold, every
    element of the list [mapFields] returns carries one of the five
    confidences 1.0, 0.9, 0.85, 0.8, 0.7, and that confidence is greater
    than or equal to the threshold applied. *)
Theorem mapFields_confidence_tiers_and_threshold
        (formFields : list FormField) (donorData : JS.object) (threshold : float) :
  Forall (fun r =>
            (confidence r = 1.0 \/ confidence r = 0.9 \/ confidence r = 0.85
             \/ confidence r = 0.8 \/ confidence r = 0.7)%float
            /\ geb (confidence r) threshold = true)
         (mapFields formFields donorData threshold).
Proof.
  apply List.Forall_forall. intros r Hr.
  apply mapFieldsWith_In in Hr as [(f & _ & Hf) Hge].
  split; [|done]. by apply mapField_tier in Hf.
Qed.

(** C7.  A form field whose name is character for character a key of the
    donor data, with a defined value there, is given that value with
    confidence exactly 1.0 and that key as its source, whatever the alias
    table holds; the result is in the list returned for every threshold
    not above 1.0. *)
Theorem exact_name_maps_with_full_confidence
        (table : list (string * list string)) (donorData : JS.object)
        (formFields : list FormField) (threshold : float)
        (f : FormField) (v : JS.value) :
  In f formFields ->
  own (name f) donorData = Some v ->
  defined v = true ->
  mapField table donorData f = Some (mkResult (name f) v 1.0 (name f))
  /\ (geb 1.0 threshold = true ->
      In (mkResult (name f) v 1.0 (name f))
         (mapFieldsWith table donorData formFields threshold)).
Proof.
  intros Hin Hown Hdef.
  assert (Hget : get donorData (name f) = v) by (unfold get; by rewrite Hown).
  assert (Hmap : mapField table donorData f = Some (mkResult (name f) v 1.0 (name f))).
  { unfold mapField, direct. by rewrite Hget, Hdef. }
  split; [done|]. intros Hge.
  apply mapFieldsWith_In. split; [|done]. by exists f.
Qed.

Lemma exact_name_maps_with_full_confidence_witness :
  let donor := [("ssn", VStr "123-45-6789")] in
  let f := mkField "ssn" "text" "" in
  mapField [] donor f = Some (mkResult "ssn" (VStr "123-45-6789") 1.0 "ssn")
  /\ In (mkResult "ssn" (VStr "123-45-6789") 1.0 "ssn") (mapFieldsWith [] donor [f] 0.7).
Proof.
  destruct (exact_name_maps_with_full_confidence
              [] [("ssn", VStr "123-45-6789")] [mkField "ssn" "text" ""] 0.7
              (mkField "ssn" "text" "") (VStr "123-45-6789"))
    as [Hfield Hkept].
  - simpl. by left.
  - reflexivity.
  - reflexivity.
  - split; [exact Hfield | exact (Hkept eq_refl)].
Defined.

(** C9.  A request whose confidence threshold is exactly 0 is served as if
    it carried none.  The reply is a success whose [confidenceThreshold] is
    the default 0.7 and whose [mappedFields] is the list filtered at 0.7,
    with the unmapped lists derived from it; it is the reply of the same
    request without threshold.  Every result a form field pushes, those of
    confidence 0.8 and 0.7 included, passes that threshold and is in the
    reply.  No request at all makes the applied threshold 0. *)
Theorem zero_threshold_is_replaced_by_default
        (fields : list FormField) (donor : JS.object) :
  let zero := mkRequest (Some fields) (Some donor) (Some 0%float) in
  let kept := mapFields fields donor 0.7 in
  appliedThreshold zero = 0.7%float
  /\ mapFieldsHandler zero
     = Ok (mkResponse kept 0.7
             (List.filter
                (fun field =>
                   negb (existsb (fun m => String.eqb (fieldName m) (name field)) kept))
                fields)
             (List.filter
                (fun key => negb (existsb (fun m => String.eqb (source m) key) kept))
                (keys donor)))
  /\ (forall f r, In f fields -> mapField commonFieldMappings donor f = Some r ->
                  In r kept)
  /\ geb 0.8 (appliedThreshold zero) = true
  /\ geb 0.7 (appliedThreshold zero) = true
  /\ (forall someFields someDonor,
         mapFieldsHandler (mkRequest someFields someDonor (Some 0%float))
         = mapFieldsHandler (mkRequest someFields someDonor None))
  /\ forall request, PrimFloat.eqb (appliedThreshold request) 0 = false.
Proof.
  intros zero kept.
  split; [reflexivity|]. split; [reflexivity|]. split.
  { intros f r Hin Hf. apply mapFieldsWith_In. split; [by exists f|].
    apply mapField_tier in Hf. destruct Hf as [->|[->|[->|[->| ->]]]]; reflexivity. }
  split; [reflexivity|]. split; [reflexivity|]. split; [reflexivity|].
  intros [fs d [x|]]; unfold appliedThreshold, or_default; simpl; [|reflexivity].
  destruct (truthy_num x) eqn:E; [|reflexivity].
  unfold truthy_num in E. apply negb_true_iff, orb_false_iff in E as [E _]. exact E.
Qed.

(** C3, as stated, fails: the field [xxabcd] is matched to the donor key
    [abcdyy] with confidence 0.7 although their 4-character prefixes
    [xxab] and [abcd] differ. *)
Lemma weak_result_without_common_prefix :
  ~ Stated.weak_results_are_prefix_matches
      [mkField "xxabcd" "text" ""] [("abcdyy", VStr "Oakland")] 0.7.
Proof.
  intros H.
  destruct (H (mkResult "xxabcd" (VStr "Oakland") 0.7 "abcdyy")) as [Hprefix _].
  - vm_compute. by left.
  - reflexivity.
  - vm_compute in Hprefix. discriminate.
Qed.

(** C3, amended.  Every result of confidence 0.7 is sourced by a donor-data
    key such that both lower-cased strings have length at least 4 and one
    of them contains the first 4 characters of the other (anywhere, not
    only as its own prefix); no result of confidence 0.7 is produced
    otherwise. *)
Theorem weak_results_share_a_prefix_of_either
        (table : list (string * list string)) (donorData : JS.object)
        (formFields : list FormField) (threshold : float) :
  Forall (fun r =>
            confidence r = 0.7%float ->
            In (source r) (keys donorData)
            /\ 4 <= String.length (toLowerCase (fieldName r))
            /\ 4 <= String.length (toLowerCase (source r))
            /\ (includes (toLowerCase (fieldName r))
                         (substring0 4 (toLowerCase (source r))) = true
                \/ includes (toLowerCase (source r))
                            (substring0 4 (toLowerCase (fieldName r))) = true))
         (mapFieldsWith table donorData formFields threshold).
Proof.
  apply List.Forall_forall. intros r Hr Hweak.
  apply mapFieldsWith_In in Hr as [(f & _ & Hf) _].
  apply mapField_Some in Hf as [Hname H].
  destruct H as [(E & _)|[(E & _)|[(E & _)|[(E & _)|(_ & Hin & _ & Hov)]]]].
  - rewrite E in Hweak. by destruct c100_not_weak.
  - rewrite E in Hweak. by destruct c090_not_weak.
  - rewrite E in Hweak. by destruct c085_not_weak.
  - rewrite E in Hweak. by destruct c080_not_weak.
  - rewrite Hname. unfold overlap in Hov.
    apply andb_true_iff in Hov as [Hlen Hinc].
    apply andb_true_iff in Hlen as [H1 H2].
    apply Nat.leb_le in H1, H2. apply orb_true_iff in Hinc. tauto.
Qed.

(** C2, as stated, fails: the description of [abcdef] contains the donor key
    [zzz], yet the field is mapped with confidence 0.7, because the key
    [abcdxx] comes first and passes the overlap test. *)
Lemma prefix_match_shadows_description_match :
  ~ Stated.description_beats_prefix
      (mkField "abcdef" "text" "enter zzz here")
      [("abcdxx", VStr "1"); ("zzz", VStr "2")] 0.7.
Proof.
  intros H.
  apply (H "zzz" ltac:(simpl; tauto) eq_refl
           (mkResult "abcdef" (VStr "1") 0.7 "abcdxx")).
  - vm_compute. by left.
  - reflexivity.
Qed.

(** C2, amended.  The direct, alias and reverse-alias tiers are tried
    strictly in that order and the first that matches fixes the result:
    a direct match gives 1.0 whatever else would match; failing that, the
    first entry of the alias table whose key the donor data defines and
    which the field name matches gives 0.9; failing that, the first table
    entry, and for it the first donor key, such that both the donor key and
    the field name match the entry gives 0.85.  When all three miss, the
    donor entries are scanned once, in enumeration order, each key being
    tested against the description and then for overlap: the first key that
    passes either test fixes the result, with confidence 0.8 if the
    lower-cased description contains its lower-cased form and 0.7 if not.
    When no key passes, the field gets no result. *)
Theorem first_fuzzy_hit_fixes_the_result
        (table : list (string * list string)) (donorData : JS.object) (f : FormField) :
  let lcFieldName := toLowerCase (name f) in
  let fieldDesc := toLowerCase (description f) in
  let alias k vs := defined (get donorData k) && matches lcFieldName k vs in
  let reverse k vs d := matches (toLowerCase d) k vs && matches lcFieldName k vs in
  let noAlias := forall k vs, In (k, vs) table -> alias k vs = false in
  let noReverse :=
    forall k vs d, In (k, vs) table -> In d (keys donorData) -> reverse k vs d = false in
  (defined (get donorData (name f)) = true ->
   mapField table donorData f
   = Some (mkResult (name f) (get donorData (name f)) 1.0 (name f)))
  /\ (defined (get donorData (name f)) = false ->
      forall before k vs after,
        table = before ++ (k, vs) :: after ->
        (forall k' vs', In (k', vs') before -> alias k' vs' = false) ->
        alias k vs = true ->
        mapField table donorData f = Some (mkResult (name f) (get donorData k) 0.9 k))
  /\ (defined (get donorData (name f)) = false -> noAlias ->
      forall before k vs after donorsBefore d donorsAfter,
        table = before ++ (k, vs) :: after ->
        keys donorData = donorsBefore ++ d :: donorsAfter ->
        (forall k' vs' d', In (k', vs') before -> In d' (keys donorData) ->
                           reverse k' vs' d' = false) ->
        (forall d', In d' donorsBefore -> reverse k vs d' = false) ->
        reverse k vs d = true ->
        mapField table donorData f = Some (mkResult (name f) (get donorData d) 0.85 d))
  /\ (defined (get donorData (name f)) = false -> noAlias -> noReverse ->
      forall before k v after,
        donorData = before ++ (k, v) :: after ->
        (forall k' v', In (k', v') before ->
                       includes fieldDesc (toLowerCase k') = false
                       /\ overlap lcFieldName (toLowerCase k') = false) ->
        includes fieldDesc (toLowerCase k) || overlap lcFieldName (toLowerCase k) = true ->
        mapField table donorData f
        = Some (mkResult (name f) v
                  (if includes fieldDesc (toLowerCase k) then 0.8 else 0.7) k))
  /\ (defined (get donorData (name f)) = false -> noAlias -> noReverse ->
      (forall k v, In (k, v) donorData ->
                   includes fieldDesc (toLowerCase k) = false
                   /\ overlap lcFieldName (toLowerCase k) = false) ->
      mapField table donorData f = None).
Proof.
  intros lcFieldName fieldDesc alias reverse noAlias noReverse.
  unfold mapField, direct. fold lcFieldName fieldDesc.
  split; [by intros ->|].
  split.
  { intros -> before k vs after -> Hbefore Hhit. by rewrite (fromDonorKeys_first_hit). }
  split.
  { intros -> Hnone before k vs after donorsBefore d donorsAfter Htable Hkeys
           Hbefore Hdonors Hhit.
    rewrite fromDonorKeys_none by done. rewrite Htable.
    erewrite fromFormFields_first_hit; [done|done|].
    rewrite Hkeys. by apply overDonorFields_first_hit. }
  split.
  { intros -> Hnone Hnone' before k v after Hdonor Hbefore Hhit.
    rewrite fromDonorKeys_none, fromFormFields_none by done.
    rewrite Hdonor. by apply fuzzy_first_hit. }
  intros -> Hnone Hnone' Hall.
  rewrite fromDonorKeys_none, fromFormFields_none by done.
  by apply fuzzy_none.
Qed.

Lemma first_fuzzy_hit_fixes_the_result_witness :
  mapField commonFieldMappings [("firstName", VStr "Jane"); ("first", VStr "J.")]
           (mkField "first_name" "text" "first name")
  = Some (mkResult "first_name" (VStr "Jane") 0.9 "firstName")
  /\ mapField commonFieldMappings [("abcdxx", VStr "1"); ("zzz", VStr "2")]
               (mkField "abcdef" "text" "enter zzz here")
     = Some (mkResult "abcdef" (VStr "1") 0.7 "abcdxx").
Proof.
  split.
  - destruct (first_fuzzy_hit_fixes_the_result commonFieldMappings
                [("firstName", VStr "Jane"); ("first", VStr "J.")]
                (mkField "first_name" "text" "first name")) as (_ & Halias & _).
    apply (Halias eq_refl [] "firstName"
             ["first_name"; "first"; "fname"; "givenname"; "given_name"]
             (List.tl commonFieldMappings)).
    + reflexivity.
    + intros k' vs' [].
    + reflexivity.
  - destruct (first_fuzzy_hit_fixes_the_result commonFieldMappings
                [("abcdxx", VStr "1"); ("zzz", VStr "2")]
                (mkField "abcdef" "text" "enter zzz here")) as (_ & _ & _ & Hscan & _).
    refine (Hscan eq_refl _ _ [] "abcdxx" (VStr "1") [("zzz", VStr "2")] eq_refl _ eq_refl).
    + intros k vs Hin.
      repeat (destruct Hin as [[= <- <-]|Hin]; [reflexivity|]). destruct Hin.
    + intros k vs d Hin Hd.
      repeat (destruct Hin as [[= <- <-]|Hin];
              [destruct Hd as [<-|[<-|[]]]; reflexivity|]).
      destruct Hin.
    + intros k' v' [].
Defined.

End FieldMapperClaims.

(* ===================================================================== *)
(** * Properties of the form-filling workflow *)
(* ===================================================================== *)

Module FormFillingFacts.
Import JS Workflow FormFilling Invariants.

(** ** Laws of the run monad, as rewriting rules for symbolic execution *)

Section RunLaws.
Context {A : Type}.
Implicit Types (k : unit -> Run A) (st : State).

Lemma bind_announce n k st :
  (announce n ≫= k) st = k tt (mkState (workflowCache st) (n :: steps st)).
Proof. reflexivity. Qed.

Lemma bind_cacheSet key v k st :
  (cacheSet key v ≫= k) st
  = k tt (mkState (<[key := v]> (workflowCache st)) (steps st)).
Proof. reflexivity. Qed.

Lemma bind_when b r k st :
  (when_ b r ≫= k) st = if b then (Return r, st) else k tt st.
Proof. by destruct b. Qed.

Lemma bind_dataOf {D} (r : Result D) property (k' : D -> Run A) st :
  (dataOf r property ≫= k') st
  = match data r with
    | Some d => k' d st
    | None => (Return (mkWorkflowResult failure "Form filling workflow failed" None
                 (Some ("Cannot read properties of undefined (reading '"
                        +:+ property +:+ "')"))), st)
    end.
Proof. unfold dataOf. by destruct (data r). Qed.

Lemma bind_pure {B} (b : B) (k' : B -> Run A) st : (pure b ≫= k') st = k' b st.
Proof. reflexivity. Qed.

Lemma bind_workflowError {B} err (k' : B -> Run A) st :
  (workflowError err ≫= k') st
  = (Return (mkWorkflowResult failure "Form filling workflow failed" None (Some err)), st).
Proof. reflexivity. Qed.
End RunLaws.

Ltac run_step :=
  first [ rewrite bind_announce | rewrite bind_cacheSet | rewrite bind_when
        | rewrite bind_dataOf | rewrite bind_pure | rewrite bind_workflowError ];
  cbn [workflowCache steps].

Ltac run_steps := repeat run_step.

(** ** Cache keys *)

Lemma cacheKey_inj id a b : cacheKey id a = cacheKey id b -> a = b.
Proof.
  unfold cacheKey. intros E. apply String.app_inj in E. by apply String.app_inj in E.
Qed.

Ltac other_key := let E := fresh in intros E; apply cacheKey_inj in E; discriminate E.


(** ** The stages return [data] exactly when they succeed *)

Lemma downloadPdf_data w url :
  isFailure (downloadPdf w url) = false -> is_Some (data (downloadPdf w url)).
Proof. unfold downloadPdf. repeat case_match; simpl; by eauto. Qed.

Lemma extractFormFields_data w p provider :
  isFailure (extractFormFields w p provider) = false ->
  is_Some (data (extractFormFields w p provider)).
Proof. unfold extractFormFields. repeat case_match; simpl; by eauto. Qed.

Lemma extractDonorData_data w p provider :
  isSuccess (extractDonorData w p provider) = true ->
  is_Some (data (extractDonorData w p provider)).
Proof. unfold extractDonorData. repeat case_match; simpl; by eauto. Qed.

Lemma mapFieldsToData_data w fs d t :
  isFailure (mapFieldsToData w fs d t) = false ->
  is_Some (data (mapFieldsToData w fs d t)).
Proof. unfold mapFieldsToData. repeat case_match; simpl; by eauto. Qed.

Lemma fillForm_data w p fd :
  isFailure (fillForm w p fd) = false -> is_Some (data (fillForm w p fd)).
Proof. unfold fillForm. repeat case_match; simpl; by eauto. Qed.

Lemma isFailure_status {D} (r : Result D) : isFailure r = true -> status r = failure.
Proof. unfold isFailure. by destruct (status r). Qed.

(** ** Combining the donor data *)

Lemma union_list_snoc (maps : list DonorRecord) (m : DonorRecord) :
  ⋃ (maps ++ [m]) = ⋃ maps ∪ m.
Proof.
  induction maps as [|m' maps IH]; simpl.
  - by rewrite (right_id_L ∅ (∪)), (left_id_L ∅ (∪)).
  - by rewrite IH, (assoc_L (∪)).
Qed.

Lemma combine_from results acc :
  wellFormed results ->
  fold_left combineStep results (Some acc)
  = Some (Stated.unionInOrder (Stated.successfulMaps results) ∪ acc).
Proof.
  unfold Stated.unionInOrder.
  revert acc. induction results as [|r rest IH]; intros acc Hwf.
  - simpl. by rewrite (left_id_L ∅ (∪)).
  - apply Forall_cons_1 in Hwf as [Hr Hrest]. simpl.
    destruct (isSuccess r) eqn:Es.
    + destruct (Hr eq_refl) as [d Hd]. rewrite Hd. simpl.
      destruct (extractedData d) as [m|]; simpl.
      * by rewrite (IH _ Hrest), reverse_cons, union_list_snoc, (assoc_L (∪)).
      * by rewrite (IH _ Hrest).
    + by rewrite (IH _ Hrest).
Qed.

Lemma combineDonorData_union results :
  wellFormed results ->
  combineDonorData results = Some (Stated.unionInOrder (Stated.successfulMaps results)).
Proof.
  intros Hwf. unfold combineDonorData.
  by rewrite (combine_from _ _ Hwf), (right_id_L ∅ (∪)).
Qed.

Lemma extracted_wellFormed w provider docs :
  wellFormed (map (fun docPath => extractDonorData w docPath provider) docs).
Proof.
  apply Forall_map, Forall_forall. intros doc _. apply extractDonorData_data.
Qed.

End FormFillingFacts.

Module FormFillingClaims.
Import JS Workflow FormFilling FormFillingFacts.

(** C4, as stated, fails: with the options omitted, a run whose download
    succeeds and whose field extraction fails answers with a null form path. *)
Lemma omitted_options_hide_the_path :
  ~ Stated.extraction_failure_exposes_path
      Scenarios.extractionFails Scenarios.formUrl [] None Scenarios.idle.
Proof.
  intros H.
  destruct (H Scenarios.formPath eq_refl eq_refl eq_refl) as (p & Hdata & Hpath).
  vm_compute in Hdata. injection Hdata as <-.
  vm_compute in Hpath. discriminate Hpath.
Qed.

(** C4, amended.  When the download succeeds and the field extraction then
    fails, the run ends in failure and its response carries the downloaded
    form's path only if [skipDownloadOnError] is explicitly [false]; the
    path is null when the flag is [true] and also when the flag or the
    options are omitted, the flag defaulting to [true]. *)
Theorem extraction_failure_exposes_path_only_on_request
        (w : World) (pdfFormUrl : string) (donorDocumentPaths : list string)
        (options : option FormFillingOptions) (st : State) (path : string) :
  isFailure (downloadPdf w pdfFormUrl) = false ->
  data (downloadPdf w pdfFormUrl) = Some path ->
  isFailure (extractFormFields w path (options ≫= analysisProvider)) = true ->
  let response :=
    (execute (runFormFillingWorkflow w pdfFormUrl donorDocumentPaths options) st).1 in
  status response = failure
  /\ data response
     = Some (OfPartial
               (mkPartial
                  (Some match options ≫= skipDownloadOnError with
                        | Some false => NotNull path
                        | Some true | None => Null
                        end)
                  None None None None None)).
Proof.
  intros Hdl Hpath Hfail response. subst response.
  unfold runFormFillingWorkflow, execute. cbv zeta.
  run_steps. rewrite Hdl. run_steps. rewrite Hpath. run_steps. rewrite Hfail.
  simpl. split; [by apply isFailure_status|].
  by destruct (options ≫= skipDownloadOnError) as [[]|].
Qed.

Lemma extraction_failure_exposes_path_only_on_request_witness :
  let run options :=
    (execute (runFormFillingWorkflow Scenarios.extractionFails Scenarios.formUrl []
                options) Scenarios.idle).1 in
  let explicit := Some (mkOptions None None None None (Some false)) in
  (status (run explicit) = failure
   /\ data (run explicit)
      = Some (OfPartial (mkPartial (Some (NotNull Scenarios.formPath))
                           None None None None None)))
  /\ (status (run None) = failure
      /\ data (run None) = Some (OfPartial (mkPartial (Some Null) None None None None None))).
Proof.
  split.
  - apply (extraction_failure_exposes_path_only_on_request
             Scenarios.extractionFails Scenarios.formUrl []
             (Some (mkOptions None None None None (Some false)))
             Scenarios.idle Scenarios.formPath); reflexivity.
  - apply (extraction_failure_exposes_path_only_on_request
             Scenarios.extractionFails Scenarios.formUrl [] None
             Scenarios.idle Scenarios.formPath); reflexivity.
Defined.

(** C6.  Aggregation resolves colliding keys in favour of the later
    document: for two successful extraction results [A] and [B], merged in
    the document order [A, B], the record has at every key that [B] defines
    the value [B] gives it, whatever [A] holds there. *)
Theorem later_document_wins
        (A B : Result DonorData) (a b : DonorData) (fromB : DonorRecord)
        (k : string) (v : JS.value) :
  isSuccess A = true -> data A = Some a ->
  isSuccess B = true -> data B = Some b ->
  extractedData b = Some fromB ->
  fromB !! k = Some v ->
  exists merged, combineDonorData [A; B] = Some merged /\ merged !! k = Some v.
Proof.
  intros HA Ha HB Hb HfromB Hk.
  unfold combineDonorData, combineStep. simpl. rewrite HA, Ha, HB, Hb. simpl.
  rewrite HfromB. eexists. split; [reflexivity|]. by apply lookup_union_Some_l.
Qed.

Lemma later_document_wins_witness :
  exists merged,
    combineDonorData [Scenarios.fromOakland; Scenarios.fromBerkeley] = Some merged
    /\ merged !! "city" = Some (VStr "Berkeley").
Proof.
  apply (later_document_wins Scenarios.fromOakland Scenarios.fromBerkeley
           (mkDonorData (Some Scenarios.oakland) "openai")
           (mkDonorData (Some Scenarios.berkeley) "openai")
           Scenarios.berkeley "city" (VStr "Berkeley")); reflexivity.
Defined.

(** C5.  After a successful download and field extraction, the outcomes of
    the donor-document extractions decide the run.  If at least one document
    was supplied and every outcome is a failure, the run ends in failure
    after step 3, without announcing step 4 and without caching a donor
    record.  If some outcome is a success, or no document was supplied, the
    donor record is exactly the union, later documents overriding, of the
    successful maps; it is cached, step 4 is entered and the mapper is
    called with that record.  With no document the record is empty. *)
Theorem donor_outcomes_decide_the_run
        (w : World) (pdfFormUrl : string) (donorDocumentPaths : list string)
        (options : option FormFillingOptions) (st : State)
        (path : string) (fieldsData : FieldsData) :
  let provider := options ≫= analysisProvider in
  let workflowId := stamped "form-filling-" (now w) in
  let results := map (fun docPath => extractDonorData w docPath provider)
                     donorDocumentPaths in
  let merged := Stated.unionInOrder (Stated.successfulMaps results) in
  let mapping := mapFieldsToData w (fields fieldsData) merged
                                 (options ≫= confidenceThreshold) in
  let out := execute (runFormFillingWorkflow w pdfFormUrl donorDocumentPaths options) st in
  isFailure (downloadPdf w pdfFormUrl) = false ->
  data (downloadPdf w pdfFormUrl) = Some path ->
  isFailure (extractFormFields w path provider) = false ->
  data (extractFormFields w path provider) = Some fieldsData ->
  (donorDocumentPaths <> [] -> allFailed results = true ->
   status out.1 = failure
   /\ message out.1 = "All donor data extractions failed"
   /\ steps out.2 = 3 :: 2 :: 1 :: steps st
   /\ workflowCache out.2 !! cacheKey workflowId "donor-data"
      = workflowCache st !! cacheKey workflowId "donor-data")
  /\ (allFailed results = false \/ donorDocumentPaths = [] ->
      combineDonorData results = Some merged
      /\ workflowCache out.2 !! cacheKey workflowId "donor-data" = Some (CDonorData merged)
      /\ In 4 (steps out.2)
      /\ (isFailure mapping = false ->
          workflowCache out.2 !! cacheKey workflowId "mapping" = Some (CMapping mapping)))
  /\ (donorDocumentPaths = [] -> merged = ∅).
Proof.
  intros provider workflowId results merged mapping out Hdl Hpath Hex Hfields.
  assert (Hcombine : combineDonorData results = Some merged).
  { apply combineDonorData_union, extracted_wellFormed. }
  subst out. unfold runFormFillingWorkflow, execute. cbv zeta.
  fold provider workflowId results.
  run_steps. rewrite Hdl. run_steps. rewrite Hpath. run_steps. rewrite Hex.
  run_steps. rewrite Hfields. run_steps.
  split; [|split].
  - intros Hsome Hall. rewrite Hall.
    destruct donorDocumentPaths as [|doc docs]; [done|]. simpl.
    repeat split. by rewrite !lookup_insert_ne by other_key.
  - intros Hproceed.
    assert (allFailed results && (0 <? length donorDocumentPaths) = false) as ->.
    { destruct Hproceed as [->| ->]; [done|]. by destruct (allFailed _). }
    rewrite Hcombine. run_steps. fold mapping.
    split; [done|].
    destruct (isFailure mapping) eqn:Hmap.
    { simpl. rewrite lookup_insert_eq. repeat split; [tauto|done]. }
    destruct (mapFieldsToData_data _ _ _ _ Hmap) as [md Hmd]. fold mapping in Hmd.
    run_steps. rewrite Hmd. run_steps.
    destruct (isFailure (fillForm w path (toFormData (mappedFields md)))) eqn:Hfill.
    { simpl. rewrite lookup_insert_eq, lookup_insert_ne by other_key.
      rewrite lookup_insert_eq. repeat split; tauto. }
    run_steps.
    destruct (fillForm_data _ _ _ Hfill) as [fd ->]. run_steps. simpl.
    rewrite !lookup_insert_ne by other_key. rewrite lookup_insert_eq.
    rewrite lookup_insert_ne by other_key. rewrite lookup_insert_eq.
    repeat split; tauto.
  - intros ->. reflexivity.
Qed.

Lemma donor_outcomes_decide_the_run_witness :
  let run docs :=
    execute (runFormFillingWorkflow Scenarios.oneDocumentMissing Scenarios.formUrl
               docs None) Scenarios.idle in
  let partial := run ["/docs/license.pdf"; "/docs/missing-1.pdf"] in
  let hopeless := run ["/docs/missing-1.pdf"; "/docs/missing-2.pdf"] in
  (workflowCache partial.2 !! cacheKey "form-filling-1000" "donor-data"
   = Some (CDonorData Scenarios.oakland)
   /\ In 4 (steps partial.2))
  /\ (status hopeless.1 = failure /\ steps hopeless.2 = [3; 2; 1]).
Proof.
  split.
  - destruct (donor_outcomes_decide_the_run
                Scenarios.oneDocumentMissing Scenarios.formUrl
                ["/docs/license.pdf"; "/docs/missing-1.pdf"] None Scenarios.idle
                Scenarios.formPath Scenarios.someFields
                eq_refl eq_refl eq_refl eq_refl) as (_ & Hsome & _).
    destruct Hsome as (_ & Hcached & Hstep & _); [by left|].
    split; [exact Hcached | exact Hstep].
  - destruct (donor_outcomes_decide_the_run
                Scenarios.oneDocumentMissing Scenarios.formUrl
                ["/docs/missing-1.pdf"; "/docs/missing-2.pdf"] None Scenarios.idle
                Scenarios.formPath Scenarios.someFields
                eq_refl eq_refl eq_refl eq_refl) as (Hnone & _).
    destruct Hnone as (Hstatus & _ & Hsteps & _); [done|reflexivity|].
    split; [exact Hstatus | exact Hsteps].
Defined.




End FormFillingClaims.

(* ===================================================================== *)
(** * Properties of the service surface *)
(* ===================================================================== *)

Module ServiceFacts.
Import JS Workflow OrchestrationService Invariants.

Lemma stamped_serviceId now : serviceId (stamped "pdf-analysis-" now).
Proof.
  unfold serviceId, stamped. simpl.
  match goal with |- String.prefix "" ?s = true => by destruct s end.
Qed.

Lemma orchestrator_cacheKey now stage :
  orchestratorKey (cacheKey (stamped "workflow-" now) stage).
Proof.
  unfold orchestratorKey, cacheKey, stamped. simpl.
  match goal with |- String.prefix "" ?s = true => by destruct s end.
Qed.

Lemma prefix_head a s1 s2 :
  String.prefix (String a s1) s2 = true -> exists s2', s2 = String a s2'.
Proof.
  destruct s2 as [|b s2]; cbn [String.prefix]; [done|].
  destruct (ascii_dec a b) as [<-|]; [eauto|done].
Qed.

Lemma serviceId_not_cached id stage :
  serviceId id -> ~ orchestratorKey (cacheKey id stage).
Proof.
  unfold serviceId, orchestratorKey, cacheKey.
  intros [id' ->]%prefix_head [key' Hkey]%prefix_head.
  cbn [String.append] in Hkey. discriminate Hkey.
Qed.

Lemma run_cached_keys w cache pdfUrl options key :
  is_Some ((PdfAnalysis.runPdfAnalysisWorkflow w cache pdfUrl options).2 !! key) ->
  is_Some (cache !! key) \/ orchestratorKey key.
Proof.
  unfold PdfAnalysis.runPdfAnalysisWorkflow. cbv zeta.
  repeat case_match; simpl; try tauto;
    rewrite ?lookup_insert_is_Some; intuition (subst; auto using orchestrator_cacheKey).
Qed.

Lemma settleOne_In p q runs : In q (settleOne p runs) -> In q runs.
Proof.
  induction runs as [|r rest IH]; simpl; [done|].
  destruct (decide (r = p)); simpl; tauto.
Qed.

Lemma consistent_initial : consistent initial.
Proof.
  split; simpl.
  - intros id [e He]. by rewrite lookup_empty in He.
  - intros key [c Hc]. by rewrite lookup_empty in Hc.
  - tauto.
Qed.

Lemma consistent_step s s' : consistent s -> step s s' -> consistent s'.
Proof.
  intros [Hreg Hcache Hpend] Hstep. destruct Hstep as [now pdfUrl prov fn s|w t p s Hin|id s].
  - unfold startPdfAnalysisWorkflow. destruct pdfUrl; simpl; [done|].
    split; simpl.
    + intros id. rewrite lookup_insert_is_Some.
      intros [<-|[_ ?]]; [apply stamped_serviceId|by apply Hreg].
    + done.
    + intros p [<-|?]; [apply stamped_serviceId|by apply Hpend].
  - unfold runWorkflowAsync.
    destruct (PdfAnalysis.runPdfAnalysisWorkflow _ _ _ _) as [result cache] eqn:Erun.
    split; simpl.
    + intros id. rewrite lookup_insert_is_Some.
      intros [<-|[_ ?]]; [by apply Hpend|by apply Hreg].
    + intros key Hkey.
      replace cache with
        (PdfAnalysis.runPdfAnalysisWorkflow w (orchestrator s) (pendingUrl p)
           (Some (PdfAnalysis.mkOptions (pendingProvider p) (pendingFilename p) None))).2
        in Hkey by (by rewrite Erun).
      apply run_cached_keys in Hkey as [?|?]; [by apply Hcache|done].
    + intros q Hq. apply Hpend. by apply (settleOne_In p).
  - unfold clearWorkflow. destruct (activeWorkflows s !! id); [|done].
    split; simpl.
    + intros id'. rewrite lookup_delete_is_Some. intros [_ ?]. by apply Hreg.
    + intros key. unfold PdfAnalysis.clearWorkflowCache.
      rewrite !lookup_delete_is_Some. intros (_ & _ & ?). by apply Hcache.
    + done.
Qed.

Lemma reachable_consistent s : reachable s -> consistent s.
Proof.
  induction 1 as [|s s' _ IH Hstep]; [apply consistent_initial|].
  by apply (consistent_step s).
Qed.

(** In every state the service can reach, whatever the identifier asked
    for, the status reply of a completed run carries a null result. *)
Lemma completed_status_never_carries_a_result s workflowId :
  reachable s ->
  match getWorkflowStatus workflowId s with
  | Completed _ _ _ _ result => result = None
  | _ => True
  end.
Proof.
  intros Hs. apply reachable_consistent in Hs as [Hreg Hcache _].
  unfold getWorkflowStatus. destruct workflowId as [|c id]; [done|].
  destruct (activeWorkflows s !! String c id) as [e|] eqn:He; [|done].
  destruct (entryStatus e); [done|].
  unfold PdfAnalysis.getWorkflowResult.
  destruct (orchestrator s !! cacheKey (String c id) "download") eqn:Hd; [|done].
  exfalso. apply (serviceId_not_cached (String c id) "download").
  - apply Hreg. by rewrite He.
  - apply Hcache. by rewrite Hd.
Qed.

End ServiceFacts.

Module ServiceClaims.
Import JS Workflow OrchestrationService.

(** C1, on the code.  The request of the polling test is accepted at clock
    reading 1000 under the identifier [pdf-analysis-1000]; download and
    extraction succeed and the run settles at 5000.  The orchestrator has
    cached both stage outputs, under its own identifier [workflow-1000];
    the status query for [pdf-analysis-1000] reports [success] with a null
    result. *)
Theorem completed_run_is_reported_without_result :
  let started :=
    startPdfAnalysisWorkflow 1000 Scenarios.formUrl (Some perplexity) (Some "dv100.pdf")
                             initial in
  let settled :=
    runWorkflowAsync Scenarios.analysisSucceeds 5000 Scenarios.testRequest started.2 in
  started.1 = Accepted "pdf-analysis-1000"
  /\ In Scenarios.testRequest (inFlight started.2)
  /\ is_Some (orchestrator settled !! "workflow-1000-download")
  /\ is_Some (orchestrator settled !! "workflow-1000-extraction")
  /\ getWorkflowStatus "pdf-analysis-1000" settled
     = Completed "pdf-analysis-1000" success 1000 (Some 5000%N) None.
Proof.
  repeat split.
  - simpl. by left.
  - vm_compute. eauto.
  - vm_compute. eauto.
Qed.

End ServiceClaims.

(* ===================================================================== *)
(** * Further properties of the field mapper *)
(* ===================================================================== *)

Module FieldMapperMore.
Import JS FieldMapper FieldMapperFacts.

Lemma includes_empty s : includes s "" = true.
Proof. by destruct s. Qed.

Lemma filter_all (A : Type) (p : A -> bool) (l : list A) :
  (forall x, In x l -> p x = true) -> List.filter p l = l.
Proof.
  induction l as [|x l IH]; simpl; intros Hall; [done|].
  rewrite (Hall x) by tauto. f_equal. apply IH. intros y Hy. apply Hall. tauto.
Qed.

Lemma own_In_keys k o v : own k o = Some v -> In k (keys o).
Proof.
  induction o as [|[k' v'] o IH]; simpl; [done|].
  destruct (String.eqb_spec k k') as [->|]; [tauto|]. intros H. right. by apply IH.
Qed.

Lemma own_not_In k o : ~ In k (keys o) -> own k o = None.
Proof.
  intros Hk. destruct (own k o) eqn:E; [|done]. by apply own_In_keys in E.
Qed.

(** Every tier hands over the value the donor data holds under the source. *)
Section Values.
Variable table : list (string * list string).
Variable donor : JS.object.

Lemma fuzzy_own n lc desc entries r :
  fuzzy n lc desc entries = Some r -> own (source r) entries = Some (value r).
Proof.
  induction entries as [|[k v] rest IH]; simpl; [done|].
  destruct (includes desc (toLowerCase k)) eqn:E1.
  { intros [= <-]. simpl. by rewrite String.eqb_refl. }
  destruct (overlap lc (toLowerCase k)) eqn:E2.
  { intros [= <-]. simpl. by rewrite String.eqb_refl. }
  intros H. destruct (String.eqb_spec (source r) k) as [Hk|_]; [|by apply IH].
  apply fuzzy_Some in H as (k' & v' & _ & [[-> Hd]|[-> [_ Ho]]]); simpl in Hk; subst k';
    congruence.
Qed.

Lemma mapField_value f r :
  mapField table donor f = Some r -> value r = get donor (source r).
Proof.
  unfold mapField.
  destruct (direct donor (name f)) eqn:E1.
  { intros [= <-]. by apply direct_Some in E1 as [-> _]. }
  destruct (fromDonorKeys donor (name f) _ table) eqn:E2.
  { intros [= <-]. by apply fromDonorKeys_Some in E2 as (k & vs & _ & -> & _). }
  destruct (fromFormFields donor (name f) _ table) eqn:E3.
  { intros [= <-]. by apply fromFormFields_Some in E3 as (k & vs & d & _ & _ & -> & _). }
  intros H. apply fuzzy_own in H. unfold get. by rewrite H.
Qed.

Lemma mapField_source f r :
  mapField table donor f = Some r ->
  In (source r) (keys donor) \/ In (source r) prototype_members.
Proof.
  assert (Hdef : forall k, defined (get donor k) = true ->
                           In k (keys donor) \/ In k prototype_members).
  { intros k. unfold get. destruct (own k donor) eqn:Ho.
    - intros _. left. by apply own_In_keys in Ho.
    - destruct (existsb (String.eqb k) prototype_members) eqn:Ep; [|done].
      intros _. right. apply existsb_exists in Ep as (m & Hm & Heq).
      by apply String.eqb_eq in Heq as ->. }
  unfold mapField.
  destruct (direct donor (name f)) eqn:E1.
  { intros [= <-]. apply direct_Some in E1 as [-> Hd]. by apply Hdef. }
  destruct (fromDonorKeys donor (name f) _ table) eqn:E2.
  { intros [= <-]. apply fromDonorKeys_Some in E2 as (k & vs & _ & -> & Hd & _).
    by apply Hdef. }
  destruct (fromFormFields donor (name f) _ table) eqn:E3.
  { intros [= <-]. apply fromFormFields_Some in E3 as (k & vs & d & _ & Hin & -> & _).
    by left. }
  intros H. left. apply fuzzy_own in H. by apply own_In_keys in H.
Qed.
End Values.

(** X1.  The list [mapFields] returns follows the order of the form fields
    and holds at most one result per field: the field names of the results
    are a sublist of the names of the form fields.  When the form's field
    names are pairwise distinct, so are those of the results. *)
Theorem results_follow_the_form_fields
        (table : list (string * list string)) (donorData : JS.object)
        (formFields : list FormField) (threshold : float) :
  let results := mapFieldsWith table donorData formFields threshold in
  map fieldName results `sublist_of` map name formFields
  /\ length results <= length formFields
  /\ (NoDup (map name formFields) -> NoDup (map fieldName results)).
Proof.
  intros results.
  assert (Hsub : map fieldName results `sublist_of` map name formFields).
  { subst results. unfold mapFieldsWith.
    induction formFields as [|f fields IH]; simpl; [done|].
    destruct (mapField table donorData f) as [r|] eqn:Hf; simpl.
    - apply mapField_Some in Hf as [Hname _].
      destruct (geb (confidence r) threshold); simpl.
      + rewrite Hname. by apply sublist_skip.
      + by apply sublist_cons.
    - by apply sublist_cons. }
  split; [done|]. split.
  - apply sublist_length in Hsub. by rewrite !length_map in Hsub.
  - intros Hnodup. by eapply sublist_NoDup.
Qed.

(** X2.  At the default threshold the filter drops nothing: a request that
    carries no threshold is answered, at threshold 0.7, with one result for
    every form field that any tier matches. *)
Theorem default_threshold_keeps_every_match
        (fields : list FormField) (donor : JS.object) :
  match mapFieldsHandler (mkRequest (Some fields) (Some donor) None) with
  | Ok body => mappedFields body = omap (mapField commonFieldMappings donor) fields
               /\ confidenceThreshold body = 0.7%float
  | BadRequest => False
  end.
Proof.
  unfold mapFieldsHandler, appliedThreshold, mapFields, mapFieldsWith. simpl.
  split; [|done]. apply filter_all.
  intros r Hr. apply list_elem_of_In, list_elem_of_omap in Hr as (f & _ & Hf).
  apply mapField_tier in Hf.
  destruct Hf as [->|[->|[->|[->| ->]]]]; reflexivity.
Qed.

(** X4.  The mapper invents neither keys nor values: the source of every
    result is a key of the donor data or the name of a member inherited
    from [Object.prototype], and the value of the result is the one the
    donor data holds under that source. *)
Theorem results_carry_donor_values
        (table : list (string * list string)) (donorData : JS.object)
        (formFields : list FormField) (threshold : float) :
  Forall (fun r =>
            (In (source r) (keys donorData) \/ In (source r) prototype_members)
            /\ value r = get donorData (source r))
         (mapFieldsWith table donorData formFields threshold).
Proof.
  apply List.Forall_forall. intros r Hr.
  apply mapFieldsWith_In in Hr as [(f & _ & Hf) _].
  split; [by apply (mapField_source table donorData f)|by apply (mapField_value table _ f)].
Qed.

(** ** Mapped and unmapped form fields in the reply *)

Section Reply.
Variable table : list (string * list string).
Variable donor : JS.object.
Variable threshold : float.

(** The field pushes a result that passes the threshold. *)
Definition kept (f : FormField) : bool :=
  match mapField table donor f with
  | Some r => geb (confidence r) threshold
  | None => false
  end.

Definition named (mapped : list MappingResult) (f : FormField) : bool :=
  existsb (fun m => String.eqb (fieldName m) (name f)) mapped.

Lemma mapped_length fields :
  length (mapFieldsWith table donor fields threshold) = length (List.filter kept fields).
Proof.
  unfold mapFieldsWith, kept. induction fields as [|f fields IH]; simpl; [done|].
  destruct (mapField table donor f) as [r|]; simpl; [|exact IH].
  destruct (geb (confidence r) threshold); simpl;
    first [exact IH | exact (f_equal S IH)].
Qed.

Lemma kept_named fields f :
  In f fields -> kept f = true ->
  named (mapFieldsWith table donor fields threshold) f = true.
Proof.
  unfold kept. intros Hin Hkept.
  destruct (mapField table donor f) as [r|] eqn:Hf; [|done].
  apply existsb_exists. exists r. split.
  - apply mapFieldsWith_In. eauto.
  - apply mapField_Some in Hf as [-> _]. apply String.eqb_refl.
Qed.

Lemma map_inj_on {A B} (h : A -> B) (l : list A) x y :
  NoDup (map h l) -> In x l -> In y l -> h x = h y -> x = y.
Proof.
  induction l as [|a l IH]; simpl; [done|].
  intros Hnd [->|Hx] [->|Hy] Heq; try done;
    apply NoDup_cons in Hnd as [Hnotin Hnd].
  - destruct Hnotin. rewrite list_elem_of_In, Heq. by apply in_map.
  - destruct Hnotin. rewrite list_elem_of_In, <- Heq. by apply in_map.
  - by apply IH.
Qed.

Lemma named_kept fields f :
  NoDup (map name fields) -> In f fields ->
  named (mapFieldsWith table donor fields threshold) f = true -> kept f = true.
Proof.
  intros Hnd Hin Hnamed.
  apply existsb_exists in Hnamed as (m & Hm & Heq). apply String.eqb_eq in Heq.
  apply mapFieldsWith_In in Hm as [(f' & Hin' & Hf') Hge].
  assert (f' = f) as ->.
  { apply (map_inj_on name fields); [done..|].
    apply mapField_Some in Hf' as [<- _]. done. }
  unfold kept. by rewrite Hf'.
Qed.

Lemma filter_shorter {A} (p q : A -> bool) (l : list A) :
  (forall x, In x l -> p x = true -> q x = true) ->
  length (List.filter p l) <= length (List.filter q l).
Proof.
  induction l as [|x l IH]; simpl; intros Himp; [done|].
  assert (IH' : length (List.filter p l) <= length (List.filter q l)).
  { apply IH. intros y Hy. apply Himp. tauto. }
  destruct (p x) eqn:Ep; simpl.
  - rewrite (Himp x) by tauto. simpl. lia.
  - destruct (q x); simpl; lia.
Qed.
End Reply.

(** X3.  In the reply of the mapping service no form field is counted twice:
    the mapped and the unmapped form fields together never outnumber the
    form fields, and when the field names of the form are pairwise distinct
    they add up to exactly the number of form fields. *)
Theorem mapped_and_unmapped_fields_add_up
        (fields : list FormField) (donor : JS.object) (confidence : option float) :
  match mapFieldsHandler (mkRequest (Some fields) (Some donor) confidence) with
  | Ok body =>
      length (mappedFields body) + length (unmappedFormFields body) <= length fields
      /\ (NoDup (map name fields) ->
          length (mappedFields body) + length (unmappedFormFields body) = length fields)
  | BadRequest => False
  end.
Proof.
  unfold mapFieldsHandler. simpl.
  set (t := appliedThreshold _). unfold mapFields.
  set (mapped := mapFieldsWith commonFieldMappings donor fields t).
  pose proof (mapped_length commonFieldMappings donor t fields) as Hlen.
  fold mapped in Hlen.
  pose proof (filter_length (kept commonFieldMappings donor t) fields) as Hsum.
  split.
  - assert (length (List.filter (fun f => negb (named mapped f)) fields)
            <= length (List.filter (fun f => negb (kept commonFieldMappings donor t f))
                                   fields)) as Hle.
    { apply filter_shorter. intros f Hin Hn.
      destruct (kept commonFieldMappings donor t f) eqn:Hk; [|done].
      apply (kept_named _ _ _ fields) in Hk; [|done]. fold mapped in Hk.
      by rewrite Hk in Hn. }
    unfold named in Hle. lia.
  - intros Hnd.
    assert (List.filter (fun f => negb (named mapped f)) fields
            = List.filter (fun f => negb (kept commonFieldMappings donor t f)) fields)
      as Heq.
    { apply filter_ext_in. intros f Hin. f_equal.
      destruct (kept commonFieldMappings donor t f) eqn:Hk.
      - by apply kept_named.
      - destruct (named mapped f) eqn:Hn; [|done].
        apply named_kept in Hn; [congruence|done..]. }
    unfold named in Heq. rewrite Heq. lia.
Qed.

(** ** Donor keys that always or never match *)

Lemma fuzzy_hit n lc desc entries k v :
  In (k, v) entries -> includes desc (toLowerCase k) = true ->
  is_Some (fuzzy n lc desc entries).
Proof.
  induction entries as [|[k0 v0] rest IH]; simpl; [done|].
  intros Hin Hdesc.
  destruct (includes desc (toLowerCase k0)) eqn:E1; [by eauto|].
  destruct (overlap lc (toLowerCase k0)); [by eauto|].
  destruct Hin as [[= -> ->]|Hin]; [congruence|by apply IH].
Qed.

(** X5.  A field whose lower-cased description contains the lower-cased form
    of some donor-data key is never left without a match; in particular a
    donor-data record that has the empty string among its keys gives every
    form field a match. *)
Theorem described_fields_always_match
        (table : list (string * list string)) (donorData : JS.object) (f : FormField) :
  (forall k, In k (keys donorData) ->
             includes (toLowerCase (description f)) (toLowerCase k) = true ->
             is_Some (mapField table donorData f))
  /\ (In "" (keys donorData) -> is_Some (mapField table donorData f)).
Proof.
  assert (Hgen : forall k, In k (keys donorData) ->
                           includes (toLowerCase (description f)) (toLowerCase k) = true ->
                           is_Some (mapField table donorData f)).
  { intros k Hk Hdesc. unfold mapField.
    destruct (direct donorData (name f)); [by eauto|].
    destruct (fromDonorKeys donorData (name f) _ table); [by eauto|].
    destruct (fromFormFields donorData (name f) _ table); [by eauto|].
    apply in_map_iff in Hk as ([k' v] & <- & Hin). by eapply fuzzy_hit. }
  split; [done|]. intros Hempty. apply (Hgen "" Hempty). apply includes_empty.
Qed.

Lemma inherited_defined k :
  In k prototype_members -> existsb (String.eqb k) prototype_members = true.
Proof. intros Hk. apply existsb_exists. exists k. by rewrite String.eqb_refl. Qed.

Lemma not_inherited k :
  ~ In k prototype_members -> existsb (String.eqb k) prototype_members = false.
Proof.
  intros Hk. destruct (existsb _ _) eqn:E; [|done].
  apply existsb_exists in E as (m & Hm & Heq). by apply String.eqb_eq in Heq as ->.
Qed.

(** X6.  A form field named like a member of [Object.prototype] (say
    [toString]) that the donor data does not define itself is matched
    directly, with confidence 1.0, to the inherited member, whatever the
    donor data and the alias table hold. *)
Theorem inherited_members_match_directly
        (table : list (string * list string)) (donorData : JS.object) (f : FormField) :
  In (name f) prototype_members ->
  own (name f) donorData = None ->
  mapField table donorData f
  = Some (mkResult (name f) (VInherited (name f)) 1.0 (name f)).
Proof.
  intros Hmember Hown. unfold mapField, direct, get.
  by rewrite Hown, (inherited_defined _ Hmember).
Qed.

Lemma inherited_members_match_directly_witness :
  mapField commonFieldMappings [] (mkField "toString" "text" "")
  = Some (mkResult "toString" (VInherited "toString") 1.0 "toString").
Proof.
  apply (inherited_members_match_directly commonFieldMappings []
           (mkField "toString" "text" "")).
  - simpl. tauto.
  - reflexivity.
Defined.

(** X7.  Against empty donor data the mapper returns nothing, provided no
    form field is named like a member of [Object.prototype]. *)
Theorem empty_donor_data_maps_nothing
        (formFields : list FormField) (threshold : float) :
  (forall f, In f formFields -> ~ In (name f) prototype_members) ->
  mapFields formFields [] threshold = [].
Proof.
  intros Hplain. unfold mapFields, mapFieldsWith.
  replace (omap (mapField commonFieldMappings []) formFields) with (@nil MappingResult);
    [done|].
  symmetry. induction formFields as [|f fields IH]; [done|]. simpl.
  assert (mapField commonFieldMappings [] f = None) as ->.
  { unfold mapField, direct, get. simpl own.
    by rewrite (not_inherited _ (Hplain f ltac:(by left))). }
  apply IH. intros g Hg. apply Hplain. by right.
Qed.

Lemma empty_donor_data_maps_nothing_witness :
  mapFields [mkField "first_name" "text" "Your first name"] [] 0.7 = [].
Proof.
  apply (empty_donor_data_maps_nothing [mkField "first_name" "text" "Your first name"] 0.7).
  intros f [<-|[]]. simpl. intuition discriminate.
Defined.

(** ** The field name only counts up to case, past the direct tier *)

Section Case.
Variable table : list (string * list string).
Variable donor : JS.object.

(** What a result says about the donor data. *)
Definition verdict (r : MappingResult) : JS.value * float * string :=
  (value r, confidence r, source r).

Lemma fromDonorKeys_name n n' lc entries :
  verdict <$> fromDonorKeys donor n lc entries
  = verdict <$> fromDonorKeys donor n' lc entries.
Proof.
  induction entries as [|[k vs] rest IH]; simpl; [done|].
  by destruct (defined (get donor k) && matches lc k vs).
Qed.

Lemma overDonorFields_name n n' lc k vs donorFields :
  verdict <$> overDonorFields donor n lc k vs donorFields
  = verdict <$> overDonorFields donor n' lc k vs donorFields.
Proof.
  induction donorFields as [|d rest IH]; simpl; [done|].
  by destruct (matches (toLowerCase d) k vs && matches lc k vs).
Qed.

Lemma fromFormFields_name n n' lc entries :
  verdict <$> fromFormFields donor n lc entries
  = verdict <$> fromFormFields donor n' lc entries.
Proof.
  induction entries as [|[k vs] rest IH]; simpl; [done|].
  pose proof (overDonorFields_name n n' lc k vs (keys donor)) as H.
  destruct (overDonorFields donor n lc k vs (keys donor)),
           (overDonorFields donor n' lc k vs (keys donor));
    first [exact H | discriminate H | exact IH].
Qed.

Lemma fuzzy_name n n' lc desc entries :
  verdict <$> fuzzy n lc desc entries = verdict <$> fuzzy n' lc desc entries.
Proof.
  induction entries as [|[k v] rest IH]; simpl; [done|].
  destruct (includes desc (toLowerCase k)); [done|].
  by destruct (overlap lc (toLowerCase k)).
Qed.
End Case.

(** X8.  Past the direct tier the field name only counts up to case: two
    form fields with the same description whose names differ in the case of
    their letters only, and of which neither is matched directly, get the
    same source, value and confidence, or both get none. *)
Theorem field_name_case_is_ignored_past_the_direct_tier
        (table : list (string * list string)) (donorData : JS.object)
        (f1 f2 : FormField) :
  toLowerCase (name f1) = toLowerCase (name f2) ->
  toLowerCase (description f1) = toLowerCase (description f2) ->
  direct donorData (name f1) = None ->
  direct donorData (name f2) = None ->
  verdict <$> mapField table donorData f1 = verdict <$> mapField table donorData f2.
Proof.
  intros Hname Hdesc H1 H2. unfold mapField. rewrite H1, H2, Hname, Hdesc.
  pose proof (fromDonorKeys_name donorData (name f1) (name f2)
                (toLowerCase (name f2)) table) as Ha.
  pose proof (fromFormFields_name donorData (name f1) (name f2)
                (toLowerCase (name f2)) table) as Hb.
  pose proof (fuzzy_name (name f1) (name f2) (toLowerCase (name f2))
                (toLowerCase (description f2)) donorData) as Hc.
  destruct (fromDonorKeys donorData (name f1) _ table),
           (fromDonorKeys donorData (name f2) _ table);
    first [exact Ha | discriminate Ha | idtac].
  destruct (fromFormFields donorData (name f1) _ table),
           (fromFormFields donorData (name f2) _ table);
    first [exact Hb | discriminate Hb | exact Hc].
Qed.

Lemma field_name_case_is_ignored_past_the_direct_tier_witness :
  let donor := [("firstName", VStr "Jane")] in
  verdict <$> mapField commonFieldMappings donor (mkField "First_Name" "text" "")
  = verdict <$> mapField commonFieldMappings donor (mkField "FIRST_NAME" "text" "").
Proof.
  apply (field_name_case_is_ignored_past_the_direct_tier commonFieldMappings
           [("firstName", VStr "Jane")]
           (mkField "First_Name" "text" "") (mkField "FIRST_NAME" "text" ""));
    reflexivity.
Defined.

End FieldMapperMore.

(* ===================================================================== *)
(** * Further properties of the form-filling workflow *)
(* ===================================================================== *)

Module FormFillingMore.
Import JS Workflow FormFilling FormFillingFacts Invariants.

(** ** Cache keys of different runs or stages never coincide *)

Fixpoint lastChar (s : string) : option ascii :=
  match s with
  | EmptyString => None
  | String c EmptyString => Some c
  | String _ s' => lastChar s'
  end.

Lemma lastChar_app s t : t <> EmptyString -> lastChar (s +:+ t) = lastChar t.
Proof.
  intros Ht. induction s as [|c s IH]; [done|].
  change (String c s +:+ t) with (String c (s +:+ t)). simpl.
  destruct (s +:+ t) eqn:E; [|done].
  destruct s; simpl in E; [done|discriminate E].
Qed.

Lemma append_length s t : String.length (s +:+ t) = String.length s + String.length t.
Proof. induction s as [|c s IH]; simpl; [done|]. by rewrite IH. Qed.

Lemma append_inj_r s1 s2 t : s1 +:+ t = s2 +:+ t -> s1 = s2.
Proof.
  revert s2. induction s1 as [|c s1 IH]; intros [|d s2] E.
  - done.
  - apply (f_equal String.length) in E. rewrite !append_length in E.
    simpl in E. lia.
  - apply (f_equal String.length) in E. rewrite !append_length in E.
    simpl in E. lia.
  - simpl in E. injection E as -> E. f_equal. by apply IH.
Qed.

(** The five stages [runFormFillingWorkflow] caches under. *)
Definition stages : list string :=
  ["download"; "fields"; "donor-data"; "mapping"; "filled-form"].

Lemma cacheKey_separates id1 id2 a b :
  In a stages -> In b stages -> cacheKey id1 a = cacheKey id2 b -> id1 = id2 /\ a = b.
Proof.
  unfold cacheKey, stages. simpl. intros Ha Hb E.
  assert (Hlast : lastChar ("-" +:+ a) = lastChar ("-" +:+ b)).
  { apply (f_equal lastChar) in E.
    rewrite (lastChar_app id1), (lastChar_app id2) in E by done. exact E. }
  assert (a = b) as <-.
  { intuition (subst; first [done | discriminate Hlast]). }
  split; [|done]. by apply append_inj_r in E.
Qed.

(** ** The run, case by case *)

Section Cases.
Variable w : World.
Variable pdfFormUrl : string.
Variable donorDocumentPaths : list string.
Variable options : option FormFillingOptions.
Variable st : State.

Let workflowId := stamped "form-filling-" (now w).
Let skip := nullish (options ≫= skipDownloadOnError) true.
Let provider := options ≫= analysisProvider.
Let out := execute (runFormFillingWorkflow w pdfFormUrl donorDocumentPaths options) st.
Let downloaded := downloadPdf w pdfFormUrl.
Let results := map (fun docPath => extractDonorData w docPath provider) donorDocumentPaths.
Let merged := Stated.unionInOrder (Stated.successfulMaps results).

(** Where the run stopped, with what it had produced by then. *)
Inductive Stopped : Prop :=
| AtDownload :
    isFailure downloaded = true ->
    out = (forward downloaded, mkState (workflowCache st) (1 :: steps st)) ->
    Stopped
| AtFieldExtraction path :
    isFailure downloaded = false -> data downloaded = Some path ->
    isFailure (extractFormFields w path provider) = true ->
    out = (withData (extractFormFields w path provider)
             (mkPartial (Some (exposed skip path)) None None None None None),
           mkState (<[cacheKey workflowId "download" := CDownload downloaded]>
                      (workflowCache st))
                   (2 :: 1 :: steps st)) ->
    Stopped
| AtDonorExtraction path fieldsData :
    isFailure downloaded = false -> data downloaded = Some path ->
    isFailure (extractFormFields w path provider) = false ->
    data (extractFormFields w path provider) = Some fieldsData ->
    donorDocumentPaths <> [] -> allFailed results = true ->
    out = (mkWorkflowResult failure "All donor data extractions failed"
             (Some (OfPartial (mkPartial (Some (exposed skip path))
                                 (Some (fields fieldsData)) None None None None)))
             (Some "Failed to extract data from any donor documents"),
           mkState (<[cacheKey workflowId "fields"
                      := CFields (extractFormFields w path provider)]>
                      (<[cacheKey workflowId "download" := CDownload downloaded]>
                         (workflowCache st)))
                   (3 :: 2 :: 1 :: steps st)) ->
    Stopped
| AtMapping path fieldsData :
    isFailure downloaded = false -> data downloaded = Some path ->
    isFailure (extractFormFields w path provider) = false ->
    data (extractFormFields w path provider) = Some fieldsData ->
    let mapping := mapFieldsToData w (fields fieldsData) merged
                                   (options ≫= confidenceThreshold) in
    isFailure mapping = true ->
    out = (withData mapping
             (mkPartial (Some (exposed skip path)) None None None (data mapping) None),
           mkState (<[cacheKey workflowId "donor-data" := CDonorData merged]>
                      (<[cacheKey workflowId "fields"
                         := CFields (extractFormFields w path provider)]>
                         (<[cacheKey workflowId "download" := CDownload downloaded]>
                            (workflowCache st))))
                   (4 :: 3 :: 2 :: 1 :: steps st)) ->
    Stopped
| AtFilling path fieldsData mappingData (finished : bool) :
    isFailure downloaded = false -> data downloaded = Some path ->
    isFailure (extractFormFields w path provider) = false ->
    data (extractFormFields w path provider) = Some fieldsData ->
    let mapping := mapFieldsToData w (fields fieldsData) merged
                                   (options ≫= confidenceThreshold) in
    isFailure mapping = false -> data mapping = Some mappingData ->
    let filling := fillForm w path (toFormData (mappedFields mappingData)) in
    let cached :=
      <[cacheKey workflowId "mapping" := CMapping mapping]>
        (<[cacheKey workflowId "donor-data" := CDonorData merged]>
           (<[cacheKey workflowId "fields"
              := CFields (extractFormFields w path provider)]>
              (<[cacheKey workflowId "download" := CDownload downloaded]>
                 (workflowCache st)))) in
    (if finished
     then isFailure filling = false
          /\ status out.1 = success
          /\ out.2 = mkState (<[cacheKey workflowId "filled-form" := CFilledForm filling]>
                                cached)
                             (5 :: 4 :: 3 :: 2 :: 1 :: steps st)
     else isFailure filling = true
          /\ out = (withData filling
                      (mkPartial (Some (exposed skip path)) None None
                         (Some (mappedFields mappingData)) None (data filling)),
                    mkState cached (5 :: 4 :: 3 :: 2 :: 1 :: steps st))) ->
    Stopped.

Lemma run_stops : Stopped.
Proof.
  pose proof (eq_refl out) as Hout. unfold out at 2 in Hout.
  unfold runFormFillingWorkflow, execute in Hout. cbv zeta in Hout.
  fold workflowId skip provider downloaded results in Hout.
  revert Hout. run_steps.
  destruct (isFailure downloaded) eqn:Hdl.
  { intros Hout. by apply AtDownload. }
  destruct (downloadPdf_data _ _ Hdl) as [path Hpath]. fold downloaded in Hpath.
  rewrite Hpath. run_steps.
  destruct (isFailure (extractFormFields w path provider)) eqn:Hex.
  { intros Hout. by eapply AtFieldExtraction. }
  destruct (extractFormFields_data _ _ _ Hex) as [fieldsData Hfields].
  rewrite Hfields. run_steps.
  destruct (allFailed results && (0 <? length donorDocumentPaths)) eqn:Hall.
  { intros Hout. apply andb_true_iff in Hall as [Hall Hsome].
    eapply AtDonorExtraction; eauto. by destruct donorDocumentPaths. }
  assert (Hcombine : combineDonorData results = Some merged).
  { apply combineDonorData_union, extracted_wellFormed. }
  rewrite Hcombine. run_steps.
  destruct (isFailure (mapFieldsToData w (fields fieldsData) merged _)) eqn:Hmap.
  { intros Hout. by eapply AtMapping. }
  destruct (mapFieldsToData_data _ _ _ _ Hmap) as [mappingData Hmd].
  rewrite Hmd. run_steps.
  destruct (isFailure (fillForm w path (toFormData (mappedFields mappingData)))) eqn:Hfill.
  { intros Hout. by eapply (AtFilling path fieldsData mappingData false). }
  destruct (fillForm_data _ _ _ Hfill) as [filled Hfd]. run_steps. rewrite Hfd.
  run_steps. intros Hout.
  eapply (AtFilling path fieldsData mappingData true); eauto.
  rewrite Hfill, Hout. done.
Qed.
End Cases.

Lemma downloadPdf_failure w url :
  isFailure (downloadPdf w url) = true ->
  status (downloadPdf w url) = failure /\ data (downloadPdf w url) = None
  /\ message (downloadPdf w url) = "PDF download failed".
Proof. unfold downloadPdf. by repeat case_match. Qed.

Lemma getWorkflowResult_frame (c c' : gmap string Cached) id :
  (forall stage, In stage stages -> c' !! cacheKey id stage = c !! cacheKey id stage) ->
  getWorkflowResult c' id = getWorkflowResult c id.
Proof.
  intros H. unfold getWorkflowResult.
  by rewrite !H by (unfold stages; simpl; tauto).
Qed.

(** The puppeteer server is unreachable. *)
Definition downloadFails : World :=
  mkWorld 1000 1001 (fun _ => true)
    (fun _ _ => Rejected "connect ECONNREFUSED")
    (fun _ _ => OtherBody) (fun _ _ => OtherBody)
    (fun _ _ _ => OtherBody) (fun _ _ _ => OtherBody).

(** What an earlier run, started at clock reading 7, left in the cache. *)
Definition earlierRun : State :=
  (execute (runFormFillingWorkflow
              (mkWorld 7 8 (fun _ => true)
                 (fun _ _ => SuccessBody Scenarios.formPath)
                 (fun _ _ => SuccessBody Scenarios.someFields)
                 (fun _ _ => SuccessBody (mkDonorData (Some Scenarios.oakland) "openai"))
                 (fun _ _ _ => SuccessBody (mkMappingData [] [] [] 0.7))
                 (fun _ _ _ => SuccessBody (mkFilledForm "/uploads/filled-form.pdf"
                                                         "filled-form.pdf")))
              Scenarios.formUrl [] None) Scenarios.idle).2.

Ltac stopped_at w url docs options st :=
  destruct (run_stops w url docs options st)
    as [Hdl Hout
       |path Hdl Hpath Hex Hout
       |path fieldsData Hdl Hpath Hex Hfields Hsome Hall Hout
       |path fieldsData Hdl Hpath Hex Hfields mapping Hmap Hout
       |path fieldsData mappingData finished Hdl Hpath Hex Hfields mapping Hmap Hmd
             filling cached Hout].

(** X9.  A run writes to the cache only under its own identifier: every
    other key keeps its entry, and [getWorkflowResult] answers for every
    other run exactly as it did before the run. *)
Theorem run_leaves_other_runs_alone
        (w : World) (pdfFormUrl : string) (donorDocumentPaths : list string)
        (options : option FormFillingOptions) (st : State) :
  let workflowId := stamped "form-filling-" (now w) in
  let after :=
    workflowCache
      (execute (runFormFillingWorkflow w pdfFormUrl donorDocumentPaths options) st).2 in
  (forall key, (forall stage, In stage stages -> key <> cacheKey workflowId stage) ->
               after !! key = workflowCache st !! key)
  /\ (forall other, other <> workflowId ->
                    getWorkflowResult after other = getWorkflowResult (workflowCache st) other).
Proof.
  intros workflowId after.
  assert (Hframe : forall key,
             (forall stage, In stage stages -> key <> cacheKey workflowId stage) ->
             after !! key = workflowCache st !! key).
  { intros key Hkey. subst after.
    assert (Hne : forall stage, In stage stages -> cacheKey workflowId stage <> key).
    { intros stage Hs E. by apply (Hkey stage). }
    stopped_at w pdfFormUrl donorDocumentPaths options st;
      [rewrite Hout..|destruct finished; [destruct Hout as (_ & _ & ->)
                                         |destruct Hout as [_ ->]]];
      simpl; try subst cached;
      rewrite ?lookup_insert_ne by (apply Hne; unfold stages; simpl; tauto); done. }
  split; [done|]. intros other Hother.
  apply getWorkflowResult_frame. intros stage Hstage. apply Hframe.
  intros stage' Hstage' E. by apply cacheKey_separates in E as [? _].
Qed.

Lemma run_leaves_other_runs_alone_witness :
  let after :=
    workflowCache
      (execute (runFormFillingWorkflow Scenarios.extractionFails Scenarios.formUrl [] None)
               earlierRun).2 in
  is_Some (getWorkflowResult (workflowCache earlierRun) "form-filling-7")
  /\ getWorkflowResult after "form-filling-7"
     = getWorkflowResult (workflowCache earlierRun) "form-filling-7".
Proof.
  split.
  - vm_compute. eauto.
  - apply (run_leaves_other_runs_alone Scenarios.extractionFails Scenarios.formUrl [] None
             earlierRun).
    discriminate.
Defined.



(** X11.  Whatever the stage at which a run fails after its download has
    succeeded, the failure response carries a [formPath]: the downloaded
    path when [skipDownloadOnError] is explicitly [false], and null
    otherwise. *)
Theorem every_later_failure_reports_formPath
        (w : World) (pdfFormUrl : string) (donorDocumentPaths : list string)
        (options : option FormFillingOptions) (st : State) (savedAt : string) :
  let response :=
    (execute (runFormFillingWorkflow w pdfFormUrl donorDocumentPaths options) st).1 in
  data (downloadPdf w pdfFormUrl) = Some savedAt ->
  status response = failure ->
  exists p, data response = Some (OfPartial p)
            /\ formPath p = Some match options ≫= skipDownloadOnError with
                                 | Some false => NotNull savedAt
                                 | Some true | None => Null
                                 end.
Proof.
  intros response Hdata Hfailed. subst response.
  assert (Hexp : forall p, p = savedAt ->
             exposed (nullish (options ≫= skipDownloadOnError) true) p
             = match options ≫= skipDownloadOnError with
               | Some false => NotNull savedAt
               | Some true | None => Null
               end).
  { intros p ->. by destruct (options ≫= skipDownloadOnError) as [[]|]. }
  stopped_at w pdfFormUrl donorDocumentPaths options st.
  - apply downloadPdf_failure in Hdl as (_ & Hnone & _). congruence.
  - rewrite Hout. simpl. eexists. split; [done|]. simpl. f_equal. apply Hexp. congruence.
  - rewrite Hout. simpl. eexists. split; [done|]. simpl. f_equal. apply Hexp. congruence.
  - rewrite Hout. simpl. eexists. split; [done|]. simpl. f_equal. apply Hexp. congruence.
  - destruct finished.
    + destruct Hout as (_ & Hsuccess & _). congruence.
    + destruct Hout as [_ Hout]. rewrite Hout. simpl. eexists. split; [done|].
      simpl. f_equal. apply Hexp. congruence.
Qed.

Lemma every_later_failure_reports_formPath_witness :
  let response :=
    (execute (runFormFillingWorkflow Scenarios.oneDocumentMissing Scenarios.formUrl
                ["/docs/missing-1.pdf"]
                (Some (mkOptions None None None None (Some false))))
             Scenarios.idle).1 in
  exists p, data response = Some (OfPartial p)
            /\ formPath p = Some (NotNull Scenarios.formPath).
Proof.
  apply (every_later_failure_reports_formPath Scenarios.oneDocumentMissing
           Scenarios.formUrl ["/docs/missing-1.pdf"]
           (Some (mkOptions None None None None (Some false)))
           Scenarios.idle Scenarios.formPath); reflexivity.
Defined.

(** X12.  The steps of a run are entered strictly in order, 1 to 5, and the
    run stops at the first one that fails: the steps announced by a run are
    1, 2, ..., n for some n between 1 and 5, and n is 5 when the run
    succeeds. *)
Theorem steps_are_entered_in_order
        (w : World) (pdfFormUrl : string) (donorDocumentPaths : list string)
        (options : option FormFillingOptions) (st : State) :
  let out := execute (runFormFillingWorkflow w pdfFormUrl donorDocumentPaths options) st in
  exists n, 1 <= n <= 5
            /\ steps out.2 = rev (seq 1 n) ++ steps st
            /\ (status out.1 = success -> n = 5).
Proof.
  intros out. subst out.
  stopped_at w pdfFormUrl donorDocumentPaths options st.
  - exists 1. rewrite Hout. simpl. repeat split; [lia..|].
    apply isFailure_status in Hdl. congruence.
  - exists 2. rewrite Hout. simpl. repeat split; [lia..|].
    apply isFailure_status in Hex. congruence.
  - exists 3. rewrite Hout. simpl. repeat split; [lia..|]. discriminate.
  - exists 4. rewrite Hout. simpl. repeat split; [lia..|].
    apply isFailure_status in Hmap. subst mapping. congruence.
  - exists 5. destruct finished.
    + destruct Hout as (_ & _ & ->). simpl. repeat split; lia.
    + destruct Hout as [_ ->]. simpl. repeat split; lia.
Qed.

(** X13.  A run whose download fails returns the failure of the download as
    it is, without data; it caches nothing and enters no further step. *)
Theorem failed_download_leaves_no_trace
        (w : World) (pdfFormUrl : string) (donorDocumentPaths : list string)
        (options : option FormFillingOptions) (st : State) :
  let out := execute (runFormFillingWorkflow w pdfFormUrl donorDocumentPaths options) st in
  isFailure (downloadPdf w pdfFormUrl) = true ->
  status out.1 = failure
  /\ message out.1 = "PDF download failed"
  /\ data out.1 = None
  /\ error out.1 = error (downloadPdf w pdfFormUrl)
  /\ workflowCache out.2 = workflowCache st
  /\ steps out.2 = 1 :: steps st.
Proof.
  intros out Hfail. subst out.
  stopped_at w pdfFormUrl donorDocumentPaths options st; try congruence.
  rewrite Hout. simpl.
  by destruct (downloadPdf_failure _ _ Hfail) as (-> & -> & ->).
Qed.

Lemma failed_download_leaves_no_trace_witness :
  let out :=
    execute (runFormFillingWorkflow downloadFails Scenarios.formUrl ["/docs/license.pdf"]
               None) earlierRun in
  status out.1 = failure
  /\ message out.1 = "PDF download failed"
  /\ data out.1 = None
  /\ error out.1 = Some "connect ECONNREFUSED"
  /\ workflowCache out.2 = workflowCache earlierRun
  /\ steps out.2 = 1 :: steps earlierRun.
Proof.
  apply (failed_download_leaves_no_trace downloadFails Scenarios.formUrl
           ["/docs/license.pdf"] None earlierRun).
  reflexivity.
Defined.

(** X14.  [clearWorkflowCache] removes everything cached for a run, so that
    [getWorkflowResult] on it is null afterwards, and it leaves the results
    of every other run as they were. *)
Theorem clearing_a_run_forgets_only_that_run
        (cache : gmap string Cached) (workflowId other : string) :
  (forall stage, In stage stages ->
                 clearWorkflowCache cache workflowId !! cacheKey workflowId stage = None)
  /\ getWorkflowResult (clearWorkflowCache cache workflowId) workflowId = None
  /\ (other <> workflowId ->
      getWorkflowResult (clearWorkflowCache cache workflowId) other
      = getWorkflowResult cache other).
Proof.
  assert (Hgone : forall stage, In stage stages ->
             clearWorkflowCache cache workflowId !! cacheKey workflowId stage = None).
  { unfold clearWorkflowCache, stages. simpl. intros stage Hstage.
    repeat (rewrite lookup_delete; case_decide; [done|]).
    intuition congruence. }
  split; [done|]. split.
  - unfold getWorkflowResult. by rewrite (Hgone "download") by (unfold stages; simpl; tauto).
  - intros Hother. apply getWorkflowResult_frame. intros stage Hstage.
    unfold clearWorkflowCache.
    rewrite !lookup_delete_ne; [done|..];
      intros E; apply cacheKey_separates in E as [? _];
      first [congruence | unfold stages; simpl; tauto].
Qed.

Lemma clearing_a_run_forgets_only_that_run_witness :
  getWorkflowResult (clearWorkflowCache (workflowCache earlierRun) "form-filling-8")
                    "form-filling-7"
  = getWorkflowResult (workflowCache earlierRun) "form-filling-7".
Proof.
  apply (clearing_a_run_forgets_only_that_run (workflowCache earlierRun)
           "form-filling-8" "form-filling-7").
  discriminate.
Defined.

(** ** The form data handed to the filler *)





(** ** Merging any number of documents *)

Lemma union_list_first (before after : list DonorRecord) (m : DonorRecord) k v :
  (forall m', In m' before -> m' !! k = None) ->
  m !! k = Some v ->
(⋃ (before ++ m :: after)) !! k = Some v.
Proof.
  induction before as [|m0 before IH]; simpl; intros Hnone Hm.
  - by apply lookup_union_Some_l.
  - rewrite lookup_union_r by (apply Hnone; tauto). apply IH; [|done].
    intros m' Hm'. apply Hnone. tauto.
Qed.

Lemma union_list_none (maps : list DonorRecord) k :
  (forall m, In m maps -> m !! k = None) -> (⋃ maps) !! k = None.
Proof.
  induction maps as [|m maps IH]; simpl; intros Hnone; [done|].
  rewrite lookup_union_r by (apply Hnone; tauto). apply IH.
  intros m' Hm'. apply Hnone. tauto.
Qed.

(** X16.  However many documents are merged, and whichever of them failed,
    the merged record gives each key the value of the last successful
    document that defines it, and it has no key that no successful document
    defines. *)
Theorem last_successful_definition_wins (results : list (Result DonorData)) :
  wellFormed results ->
  exists merged,
    combineDonorData results = Some merged
    /\ (forall k v before m after,
           Stated.successfulMaps results = before ++ m :: after ->
           m !! k = Some v ->
           (forall m', In m' after -> m' !! k = None) ->
           merged !! k = Some v)
    /\ (forall k, (forall m, In m (Stated.successfulMaps results) -> m !! k = None) ->
                  merged !! k = None).
Proof.
  intros Hwf. eexists. split; [by apply combineDonorData_union|]. split.
  - intros k v before m after Hsplit Hm Hafter. unfold Stated.unionInOrder.
    rewrite Hsplit, reverse_app, reverse_cons, <- (assoc_L (++)). simpl.
    apply union_list_first; [|done].
    intros m' Hm'. apply Hafter. by apply list_elem_of_In, elem_of_reverse, list_elem_of_In.
  - intros k Hnone. unfold Stated.unionInOrder. apply union_list_none.
    intros m Hm. apply Hnone. by apply list_elem_of_In, elem_of_reverse, list_elem_of_In.
Qed.

Lemma last_successful_definition_wins_witness :
  exists merged,
    combineDonorData [Scenarios.fromBerkeley; Scenarios.fromOakland;
                      ko "Donor document not found" "File does not exist"]
    = Some merged
    /\ merged !! "city" = Some (VStr "Oakland")
    /\ merged !! "state" = None.
Proof.
  destruct (last_successful_definition_wins
              [Scenarios.fromBerkeley; Scenarios.fromOakland;
               ko "Donor document not found" "File does not exist"])
    as (merged & Hmerged & Hlast & Hnone).
  - repeat (constructor; [intros H; first [discriminate H | by eexists]|]).
    constructor.
  - exists merged. split; [exact Hmerged|]. split.
    + apply (Hlast "city" (VStr "Oakland") [Scenarios.berkeley] Scenarios.oakland []);
        [reflexivity|reflexivity|intros m' []].
    + apply Hnone. intros m [<-|[<-|[]]]; reflexivity.
Defined.

End FormFillingMore.

(* ===================================================================== *)
(** * Further properties of the PDF-analysis workflow *)
(* ===================================================================== *)

Module PdfAnalysisMore.
Import JS Workflow PdfAnalysis.

Lemma analysisKey_separates id1 id2 a b :
  In a ["download"; "extraction"] -> In b ["download"; "extraction"] ->
  cacheKey id1 a = cacheKey id2 b -> id1 = id2 /\ a = b.
Proof.
  unfold cacheKey. simpl. intros Ha Hb E.
  assert (Hlast : FormFillingMore.lastChar ("-" +:+ a)
                  = FormFillingMore.lastChar ("-" +:+ b)).
  { apply (f_equal FormFillingMore.lastChar) in E.
    rewrite (FormFillingMore.lastChar_app id1), (FormFillingMore.lastChar_app id2) in E
      by done.
    exact E. }
  assert (a = b) as <-.
  { intuition (subst; first [done | discriminate Hlast]). }
  split; [|done]. by apply FormFillingMore.append_inj_r in E.
Qed.

Lemma isFailure_failure {D} (r : Result D) : isFailure r = true -> status r = failure.
Proof. unfold isFailure. by destruct (status r). Qed.




(** X18.  When the download succeeds and the field extraction fails, the
    PDF-analysis run ends in failure and reports the downloaded path only
    if [skipDownloadOnError] is explicitly [false]; the path is null when
    the option is [true] or absent. *)
Theorem analysis_failure_reports_path_only_on_request
        (w : World) (cache : gmap string Cached) (pdfUrl : string)
        (options : option Options) (pdfPath : string) :
  let response := (runPdfAnalysisWorkflow w cache pdfUrl options).1 in
  isFailure (downloadPdf w pdfUrl (options ≫= filename)) = false ->
  data (downloadPdf w pdfUrl (options ≫= filename)) = Some pdfPath ->
  isFailure (extractFormFields w pdfPath (options ≫= analysisProvider)) = true ->
  status response = failure
  /\ data response
     = Some (OfPdfPath match options ≫= skipDownloadOnError with
                       | Some false => NotNull pdfPath
                       | Some true | None => Null
                       end).
Proof.
  intros response Hdl Hpath Hex. subst response.
  unfold runPdfAnalysisWorkflow. cbv zeta. rewrite Hdl, Hpath, Hex. simpl.
  split; [by apply isFailure_failure|].
  by destruct (options ≫= skipDownloadOnError) as [[]|].
Qed.

(** The AI analysis server answers without [status: 'success']. *)
Definition extractionFails : World :=
  mkWorld 1000 1001 (fun _ => true)
    (fun _ _ => SuccessBody Scenarios.formPath)
    (fun _ _ => OtherBody).

Lemma analysis_failure_reports_path_only_on_request_witness :
  let run options := (runPdfAnalysisWorkflow extractionFails ∅ Scenarios.formUrl options).1 in
  data (run (Some (mkOptions None None (Some false))))
  = Some (OfPdfPath (NotNull Scenarios.formPath))
  /\ data (run None) = Some (OfPdfPath Null).
Proof.
  split.
  - apply (analysis_failure_reports_path_only_on_request extractionFails ∅
             Scenarios.formUrl (Some (mkOptions None None (Some false)))
             Scenarios.formPath); reflexivity.
  - apply (analysis_failure_reports_path_only_on_request extractionFails ∅
             Scenarios.formUrl None Scenarios.formPath); reflexivity.
Defined.

(** X19.  [clearWorkflowCache] of the PDF-analysis orchestrator makes
    [getWorkflowResult] null for the identifier cleared and leaves the
    result of every other identifier as it was. *)
Theorem clearing_an_analysis_forgets_only_that_one
        (cache : gmap string Cached) (workflowId other : string) :
  getWorkflowResult (clearWorkflowCache cache workflowId) workflowId = None
  /\ (other <> workflowId ->
      getWorkflowResult (clearWorkflowCache cache workflowId) other
      = getWorkflowResult cache other).
Proof.
  unfold getWorkflowResult, clearWorkflowCache. split.
  - rewrite lookup_delete_ne
      by (intros E; apply FormFillingFacts.cacheKey_inj in E; discriminate E).
    by rewrite lookup_delete_eq.
  - intros Hother.
    rewrite !lookup_delete_ne; [done|..];
      intros E; apply analysisKey_separates in E as [? _];
      first [congruence | simpl; tauto].
Qed.

End PdfAnalysisMore.

(* ===================================================================== *)
(** * Further properties of the service surface *)
(* ===================================================================== *)

Module ServiceMore.
Import JS Workflow OrchestrationService.

Lemma stamped_nonempty prefix now : prefix <> EmptyString -> stamped prefix now <> EmptyString.
Proof. unfold stamped. by destruct prefix. Qed.

Lemma stamped_inj prefix n m : stamped prefix n = stamped prefix m -> n = m.
Proof. unfold stamped. intros E. apply String.app_inj in E. by apply pretty_N_inj in E. Qed.

(** X20.  A request with a PDF URL is accepted under the identifier
    [pdf-analysis-<clock>] and leaves the orchestrator's cache as it was;
    in the state the request leaves, before any other event, the status
    query for that identifier answers that the workflow is still running,
    with the start time of the request.  A request without URL is refused
    and changes nothing. *)
Theorem started_workflow_is_reported_running
        (now : N) (pdfUrl : string) (provider : option Provider)
        (filename : option string) (s : Service) :
  let workflowId := stamped "pdf-analysis-" now in
  let started := startPdfAnalysisWorkflow now pdfUrl provider filename s in
  (pdfUrl <> EmptyString ->
   started.1 = Accepted workflowId
   /\ getWorkflowStatus workflowId started.2 = StillRunning workflowId now
   /\ orchestrator started.2 = orchestrator s)
  /\ (pdfUrl = EmptyString -> started = (StartBadRequest, s)).
Proof.
  intros workflowId started. subst started. split.
  - intros Hurl. unfold startPdfAnalysisWorkflow.
    destruct pdfUrl as [|c url]; [done|]. simpl. fold workflowId.
    repeat split. unfold getWorkflowStatus. simpl.
    destruct workflowId eqn:E; [by apply stamped_nonempty in E|].
    by rewrite lookup_insert_eq.
  - by intros ->.
Qed.

Lemma running_only_if_unsettled id s :
  match getWorkflowStatus id s with
  | StillRunning _ _ => exists e, activeWorkflows s !! id = Some e /\ entryStatus e = running
  | _ => True
  end.
Proof.
  unfold getWorkflowStatus. destruct id; [done|].
  destruct (activeWorkflows s !! _) as [e|] eqn:He; [|done].
  destruct (entryStatus e) eqn:Hs; [|done]. eauto.
Qed.

(** X21.  When a run settles, the status query for its identifier reports
    the status the orchestrator's run ended with, the time it settled as
    completion time, and the start time registered for it; if the workflow
    had been cleared meanwhile, it is registered again, with the time it
    settled as its start time. *)
Theorem settled_workflow_reports_the_outcome
        (w : PdfAnalysis.World) (settled : N) (p : Pending) (s : Service) :
  let outcome :=
    (PdfAnalysis.runPdfAnalysisWorkflow w (orchestrator s) (pendingUrl p)
       (Some (PdfAnalysis.mkOptions (pendingProvider p) (pendingFilename p) None))).1 in
  let started :=
    match activeWorkflows s !! pendingId p with
    | Some e => startTime e
    | None => settled
    end in
  pendingId p <> EmptyString ->
  exists result,
    getWorkflowStatus (pendingId p) (runWorkflowAsync w settled p s)
    = Completed (pendingId p) (status outcome) started (Some settled) result.
Proof.
  intros outcome started Hid. subst outcome started.
  unfold runWorkflowAsync.
  destruct (PdfAnalysis.runPdfAnalysisWorkflow _ _ _ _) as [result cache].
  unfold getWorkflowStatus. simpl.
  destruct (pendingId p) eqn:E; [done|].
  rewrite lookup_insert_eq. simpl. eauto.
Qed.

Lemma settled_workflow_reports_the_outcome_witness :
  let started :=
    (startPdfAnalysisWorkflow 1000 Scenarios.formUrl (Some perplexity) (Some "dv100.pdf")
                              initial).2 in
  let cleared := clearWorkflow "pdf-analysis-1000" started in
  (exists result,
      getWorkflowStatus "pdf-analysis-1000"
        (runWorkflowAsync Scenarios.analysisSucceeds 5000 Scenarios.testRequest started)
      = Completed "pdf-analysis-1000" success 1000 (Some 5000%N) result)
  /\ (exists result,
         getWorkflowStatus "pdf-analysis-1000"
           (runWorkflowAsync Scenarios.analysisSucceeds 5000 Scenarios.testRequest cleared)
         = Completed "pdf-analysis-1000" success 5000 (Some 5000%N) result).
Proof.
  split.
  - apply (settled_workflow_reports_the_outcome Scenarios.analysisSucceeds 5000
             Scenarios.testRequest
             (startPdfAnalysisWorkflow 1000 Scenarios.formUrl (Some perplexity)
                                       (Some "dv100.pdf") initial).2).
    discriminate.
  - apply (settled_workflow_reports_the_outcome Scenarios.analysisSucceeds 5000
             Scenarios.testRequest
             (clearWorkflow "pdf-analysis-1000"
                (startPdfAnalysisWorkflow 1000 Scenarios.formUrl (Some perplexity)
                                          (Some "dv100.pdf") initial).2)).
    discriminate.
Defined.

(** X22.  Clearing a workflow makes the status query for it answer "not
    found", leaves the runs in flight as they are, and does not change the
    answer for any other identifier's registration; clearing an identifier
    that is not registered changes nothing. *)
Theorem cleared_workflow_is_not_found
        (workflowId other : string) (s : Service) :
  (workflowId <> EmptyString ->
   getWorkflowStatus workflowId (clearWorkflow workflowId s) = NotFound)
  /\ inFlight (clearWorkflow workflowId s) = inFlight s
  /\ (other <> workflowId ->
      activeWorkflows (clearWorkflow workflowId s) !! other = activeWorkflows s !! other)
  /\ (activeWorkflows s !! workflowId = None -> clearWorkflow workflowId s = s).
Proof.
  unfold clearWorkflow. repeat split.
  - intros Hid. unfold getWorkflowStatus. destruct workflowId eqn:E; [done|].
    destruct (activeWorkflows s !! String a s0) eqn:He; simpl.
    + by rewrite lookup_delete_eq.
    + by rewrite He.
  - by destruct (activeWorkflows s !! workflowId).
  - intros Hother. destruct (activeWorkflows s !! workflowId); simpl; [|done].
    by rewrite lookup_delete_ne.
  - by intros ->.
Qed.

(** ** What holds in every state the service reaches *)

Record orderly (s : Service) : Prop := mkOrderly
  { timed : forall id e, activeWorkflows s !! id = Some e ->
                         (entryStatus e = running <-> completedTime e = None);
    backed : forall id e, activeWorkflows s !! id = Some e -> entryStatus e = running ->
                          exists p, In p (inFlight s) /\ pendingId p = id }.

Lemma settleOne_other p q runs : In q runs -> q <> p -> In q (settleOne p runs).
Proof.
  induction runs as [|r rest IH]; simpl; [done|].
  intros Hin Hne. destruct (decide (r = p)) as [->|]; simpl.
  - by destruct Hin as [->|].
  - destruct Hin; [by left|right; by apply IH].
Qed.

Lemma orderly_step s s' : orderly s -> step s s' -> orderly s'.
Proof.
  intros [Htimed Hbacked] Hstep.
  destruct Hstep as [now pdfUrl prov fn s|w t p s Hin|id s].
  - unfold startPdfAnalysisWorkflow. destruct pdfUrl; simpl; [done|].
    split; simpl; intros id e; rewrite lookup_insert_Some;
      intros [[<- <-]|[Hne He]]; simpl.
    + done.
    + by apply (Htimed id).
    + intros _. eexists. split; [by left|done].
    + intros Hr. destruct (Hbacked id e He Hr) as (q & Hq & <-). eauto.
  - unfold runWorkflowAsync.
    destruct (PdfAnalysis.runPdfAnalysisWorkflow _ _ _ _) as [result cache].
    split; simpl; intros id e; rewrite lookup_insert_Some;
      intros [[<- <-]|[Hne He]]; simpl.
    + done.
    + by apply (Htimed id).
    + done.
    + intros Hr. destruct (Hbacked id e He Hr) as (q & Hq & <-).
      exists q. split; [|done]. apply settleOne_other; [done|]. by intros ->.
  - unfold clearWorkflow. destruct (activeWorkflows s !! id) as [registered|]; [|done].
    split; simpl; intros id' e; rewrite lookup_delete_Some; intros [_ He].
    + by apply (Htimed id').
    + by apply (Hbacked id').
Qed.

Lemma reachable_orderly s : reachable s -> orderly s.
Proof.
  induction 1 as [|s s' _ IH Hstep].
  - split; simpl; intros id e He; by rewrite lookup_empty in He.
  - by apply (orderly_step s).
Qed.

(** X23.  In every state the service reaches, a registered workflow has a
    completion time exactly when its status is no longer [running], and
    every workflow reported as running has a run in flight under its
    identifier. *)
Theorem running_workflows_are_in_flight (s : Service) (workflowId : string) :
  reachable s ->
  (forall e, activeWorkflows s !! workflowId = Some e ->
             (entryStatus e = running <-> completedTime e = None))
  /\ (forall startTime,
         getWorkflowStatus workflowId s = StillRunning workflowId startTime ->
         exists p, In p (inFlight s) /\ pendingId p = workflowId).
Proof.
  intros Hs. apply reachable_orderly in Hs as [Htimed Hbacked]. split.
  - intros e He. by apply (Htimed workflowId).
  - intros t Hrunning. pose proof (running_only_if_unsettled workflowId s) as H.
    rewrite Hrunning in H. destruct H as (e & He & Hr). by apply (Hbacked workflowId e).
Qed.

Lemma running_workflows_are_in_flight_witness :
  let s := (startPdfAnalysisWorkflow 1000 Scenarios.formUrl (Some perplexity)
                                     (Some "dv100.pdf") initial).2 in
  exists p, In p (inFlight s) /\ pendingId p = "pdf-analysis-1000".
Proof.
  destruct (running_workflows_are_in_flight
              (startPdfAnalysisWorkflow 1000 Scenarios.formUrl (Some perplexity)
                                        (Some "dv100.pdf") initial).2
              "pdf-analysis-1000") as [_ Hflight].
  - eapply reachable_step; [apply reachable_initial|].
    apply (step_start 1000 Scenarios.formUrl (Some perplexity) (Some "dv100.pdf") initial).
  - apply (Hflight 1000%N). reflexivity.
Defined.

(** X24.  Two requests are accepted under the same workflow identifier
    exactly when they are received at the same clock reading: identifiers
    of requests received at different readings differ, those of requests
    received within the same reading coincide. *)
Theorem identifiers_differ_with_the_clock
        (n m : N) (url1 url2 : string) (p1 p2 : option Provider)
        (f1 f2 : option string) (s1 s2 : Service) :
  url1 <> EmptyString -> url2 <> EmptyString ->
  ((startPdfAnalysisWorkflow n url1 p1 f1 s1).1
   = (startPdfAnalysisWorkflow m url2 p2 f2 s2).1
   <-> n = m).
Proof.
  intros H1 H2. unfold startPdfAnalysisWorkflow.
  destruct url1; [done|]. destruct url2; [done|]. simpl. split.
  - intros [= E]. by apply stamped_inj in E.
  - by intros ->.
Qed.

Lemma identifiers_differ_with_the_clock_witness :
  (startPdfAnalysisWorkflow 1000 "a.pdf" None None initial).1
  = (startPdfAnalysisWorkflow 1000 "b.pdf" None None initial).1
  <-> 1000%N = 1000%N.
Proof.
  apply (identifiers_differ_with_the_clock 1000 1000 "a.pdf" "b.pdf" None None None None
           initial initial); discriminate.
Defined.

End ServiceMore.
